(** * soceng-ci tunnel client: a shallow embedding and its properties

    The development follows the two source files of the tunnel client:
    the controller class [Tunnel] (allocation call, transport pool,
    control frames, teardown) and the class [TunnelHTTP2Handler] (the
    HTTP forwarder and the WebSocket bridge).

    Platform services the code calls (string methods, [JSON.parse], the
    [URL] class, sockets and streams) are modelled first; the methods of
    the two classes are then written over them in a small state and
    exception monad.  Strings are sequences of 8-bit code units.

    Around the client stand the command [start-local-tunnel], which
    creates the tunnel and reports the outcome, and the CI wrapper,
    which spawns the command and waits for the URL in its output; both
    are modelled after the two classes. *)

From Stdlib Require Import String Ascii List Arith Lia Bool ZArith DecimalString DecimalN
  DecimalPos.
From stdpp Require Import base gmap strings list.

Set Warnings "-register-all".

Open Scope string_scope.
Open Scope list_scope.

(* ===================================================================== *)
(** ** String methods used by the code *)
(* ===================================================================== *)

Module JsString.

(** [`${n}`] for a non-negative integer. *)
Definition of_nat (n : nat) : string := NilEmpty.string_of_uint (Nat.to_uint n).
Definition of_N (n : N) : string := NilEmpty.string_of_uint (N.to_uint n).

(** The class [\s] of regular expressions, on code units below 256:
    TAB, LF, VT, FF, CR, space and the no-break space. *)
Definition is_space (c : ascii) : bool :=
  let n := nat_of_ascii c in
  (Nat.leb 9 n && Nat.leb n 13) || Nat.eqb n 32 || Nat.eqb n 160.

Definition lower_char (c : ascii) : ascii :=
  let n := nat_of_ascii c in
  if (Nat.leb 65 n && Nat.leb n 90) ||
     (Nat.leb 192 n && Nat.leb n 222 && negb (Nat.eqb n 215))
  then ascii_of_nat (n + 32) else c.

(** [s.toLowerCase()] *)
Fixpoint toLowerCase (s : string) : string :=
  match s with
  | EmptyString => EmptyString
  | String c r => String (lower_char c) (toLowerCase r)
  end.

(** [s.startsWith(p)] *)
Definition startsWith (s p : string) : bool := String.prefix p s.

(** [s.includes(sub)] *)
Fixpoint includes (s sub : string) : bool :=
  String.prefix sub s ||
  match s with
  | EmptyString => false
  | String _ r => includes r sub
  end.

(** [s.slice(0, n)] *)
Fixpoint slice0 (n : nat) (s : string) : string :=
  match n, s with
  | S k, String c r => String c (slice0 k r)
  | _, _ => EmptyString
  end.

Fixpoint drop_space (l : list ascii) : list ascii :=
  match l with
  | c :: r => if is_space c then drop_space r else l
  | [] => []
  end.

(** [s.trim()] *)
Definition trim (s : string) : string :=
  string_of_list_ascii
    (rev (drop_space (rev (drop_space (list_ascii_of_string s))))).

(** The text after the first [>] of [s], if there is one. *)
Fixpoint after_gt (s : string) : option string :=
  match s with
  | EmptyString => None
  | String c r => if Ascii.eqb c ">" then Some r else after_gt r
  end.

(** A match of [[^>]+>] at the head of [s]: one character other than
    [>], then everything up to and including the next [>]. *)
Definition tag_body (s : string) : option string :=
  match s with
  | EmptyString => None
  | String c r => if Ascii.eqb c ">" then None else after_gt r
  end.

(** [s.replace(/<[^>]+>/g, "")]: the scan goes left to right; at a
    [<] that opens a match the match is dropped and the scan resumes
    behind it, any other character is kept. *)
Fixpoint strip_tags_from (fuel : nat) (s : string) : string :=
  match fuel with
  | O => s
  | S f =>
      match s with
      | EmptyString => EmptyString
      | String c r =>
          if Ascii.eqb c "<" then
            match tag_body r with
            | Some r' => strip_tags_from f r'
            | None => String c (strip_tags_from f r)
            end
          else String c (strip_tags_from f r)
      end
  end.

Definition strip_tags (s : string) : string :=
  strip_tags_from (String.length s) s.

(** [s.replace(/\s+/g, " ")]: [in_run] tells that the previous
    character was white space, so that a maximal run yields one space. *)
Fixpoint collapse_from (in_run : bool) (s : string) : string :=
  match s with
  | EmptyString => EmptyString
  | String c r =>
      if is_space c then
        if in_run then collapse_from true r
        else String " " (collapse_from true r)
      else String c (collapse_from false r)
  end.

Definition collapse_spaces (s : string) : string := collapse_from false s.

(** JavaScript truthiness of an optional string. *)
Definition truthy (o : option string) : bool :=
  match o with
  | Some s => negb (String.eqb s "")
  | None => false
  end.

(** [`${o}`] for an optional string. *)
Definition template (o : option string) : string :=
  match o with
  | Some s => s
  | None => "undefined"
  end.

End JsString.

(* ===================================================================== *)
(** ** JSON values and [JSON.parse] *)
(* ===================================================================== *)

Module Json.

(** JSON values; numbers are restricted to integers. *)
Inductive json : Type :=
| JNull
| JBool (b : bool)
| JNum (n : Z)
| JStr (s : string)
| JArr (items : list json)
| JObj (fields : list (string * json)).

(** Property read [v.k] of a parsed value: [None] is the [TypeError]
    raised on [null], [Some None] is [undefined].  For a repeated key
    the last member wins, as in [JSON.parse]. *)
Fixpoint last_field (k : string) (fields : list (string * json)) : option json :=
  match fields with
  | [] => None
  | (k', v) :: r =>
      match last_field k r with
      | Some v' => Some v'
      | None => if String.eqb k k' then Some v else None
      end
  end.

Definition get_prop (v : json) (k : string) : option (option json) :=
  match v with
  | JNull => None
  | JObj fields => Some (last_field k fields)
  | _ => Some None
  end.

Definition of_Z (z : Z) : string := NilEmpty.string_of_int (Z.to_int z).

(** [String(v)] *)
Fixpoint to_string (v : json) : string :=
  match v with
  | JNull => "null"
  | JBool true => "true"
  | JBool false => "false"
  | JNum n => of_Z n
  | JStr s => s
  | JArr items =>
      (fix join (l : list json) : string :=
         match l with
         | [] => ""
         | x :: r =>
             let sx := match x with JNull => "" | _ => to_string x end in
             match r with
             | [] => sx
             | _ => sx +:+ "," +:+ join r
             end
         end) items
  | JObj _ => "[object Object]"
  end.

Definition to_string_opt (o : option json) : string :=
  match o with
  | Some v => to_string v
  | None => "undefined"
  end.

(** *** The parser *)

Definition dquote : ascii := ascii_of_nat 34.

Definition is_ws (c : ascii) : bool :=
  let n := nat_of_ascii c in
  Nat.eqb n 32 || Nat.eqb n 9 || Nat.eqb n 10 || Nat.eqb n 13.

Definition is_digit (c : ascii) : bool :=
  let n := nat_of_ascii c in Nat.leb 48 n && Nat.leb n 57.

Definition digit_val (c : ascii) : Z := Z.of_nat (nat_of_ascii c - 48).

Fixpoint skip_ws (l : list ascii) : list ascii :=
  match l with
  | c :: r => if is_ws c then skip_ws r else l
  | [] => []
  end.

Fixpoint digits (acc : Z) (l : list ascii) : Z * list ascii :=
  match l with
  | c :: r => if is_digit c then digits (acc * 10 + digit_val c) r else (acc, l)
  | [] => (acc, [])
  end.

(** After an integer no fraction or exponent may follow in this model. *)
Definition no_fraction (l : list ascii) : bool :=
  match l with
  | c :: _ => negb (Ascii.eqb c "." || Ascii.eqb c "e" || Ascii.eqb c "E")
  | [] => true
  end.

Definition parse_nat (l : list ascii) : option (Z * list ascii) :=
  match l with
  | c :: r =>
      if Ascii.eqb c "0" then
        match r with
        | d :: _ => if is_digit d then None else
                      if no_fraction r then Some (0%Z, r) else None
        | [] => Some (0%Z, [])
        end
      else if is_digit c then
        let '(n, r') := digits 0 l in
        if no_fraction r' then Some (n, r') else None
      else None
  | [] => None
  end.

Definition parse_number (l : list ascii) : option (Z * list ascii) :=
  match l with
  | c :: r =>
      if Ascii.eqb c "-" then
        match parse_nat r with
        | Some (n, r') => Some ((- n)%Z, r')
        | None => None
        end
      else parse_nat l
  | [] => None
  end.

Definition unescape (c : ascii) : option ascii :=
  if Ascii.eqb c dquote then Some dquote
  else if Ascii.eqb c "\" then Some "\"%char
  else if Ascii.eqb c "/" then Some "/"%char
  else if Ascii.eqb c "b" then Some (ascii_of_nat 8)
  else if Ascii.eqb c "f" then Some (ascii_of_nat 12)
  else if Ascii.eqb c "n" then Some (ascii_of_nat 10)
  else if Ascii.eqb c "r" then Some (ascii_of_nat 13)
  else if Ascii.eqb c "t" then Some (ascii_of_nat 9)
  else None.

(** The characters of a string literal up to its closing quote. *)
Fixpoint parse_chars (l : list ascii) : option (string * list ascii) :=
  match l with
  | [] => None
  | c :: r =>
      if Ascii.eqb c dquote then Some (EmptyString, r)
      else if Nat.ltb (nat_of_ascii c) 32 then None
      else if Ascii.eqb c "\" then
        match r with
        | e :: r' =>
            match unescape e, parse_chars r' with
            | Some x, Some (s, rest) => Some (String x s, rest)
            | _, _ => None
            end
        | [] => None
        end
      else
        match parse_chars r with
        | Some (s, rest) => Some (String c s, rest)
        | None => None
        end
  end.

Definition expect (w : string) (v : json) (l : list ascii) : option (json * list ascii) :=
  let p := list_ascii_of_string w in
  if bool_decide (take (length p) l = p) then Some (v, drop (length p) l) else None.

Fixpoint parse_value (fuel : nat) (l : list ascii) : option (json * list ascii) :=
  match fuel with
  | O => None
  | S f =>
      match skip_ws l with
      | [] => None
      | c :: r =>
          if Ascii.eqb c "n" then expect "null" JNull (c :: r)
          else if Ascii.eqb c "t" then expect "true" (JBool true) (c :: r)
          else if Ascii.eqb c "f" then expect "false" (JBool false) (c :: r)
          else if Ascii.eqb c dquote then
            match parse_chars r with
            | Some (s, rest) => Some (JStr s, rest)
            | None => None
            end
          else if Ascii.eqb c "[" then
            match skip_ws r with
            | d :: r' =>
                if Ascii.eqb d "]" then Some (JArr [], r')
                else match parse_items f r with
                     | Some (items, rest) => Some (JArr items, rest)
                     | None => None
                     end
            | [] => None
            end
          else if Ascii.eqb c "{" then
            match skip_ws r with
            | d :: r' =>
                if Ascii.eqb d "}" then Some (JObj [], r')
                else match parse_members f r with
                     | Some (fields, rest) => Some (JObj fields, rest)
                     | None => None
                     end
            | [] => None
            end
          else
            match parse_number (c :: r) with
            | Some (n, rest) => Some (JNum n, rest)
            | None => None
            end
      end
  end
with parse_items (fuel : nat) (l : list ascii) : option (list json * list ascii) :=
  match fuel with
  | O => None
  | S f =>
      match parse_value f l with
      | Some (v, rest) =>
          match skip_ws rest with
          | c :: r =>
              if Ascii.eqb c "]" then Some ([v], r)
              else if Ascii.eqb c "," then
                match parse_items f r with
                | Some (vs, rest') => Some (v :: vs, rest')
                | None => None
                end
              else None
          | [] => None
          end
      | None => None
      end
  end
with parse_members (fuel : nat) (l : list ascii) : option (list (string * json) * list ascii) :=
  match fuel with
  | O => None
  | S f =>
      match skip_ws l with
      | q :: r0 =>
          if Ascii.eqb q dquote then
            match parse_chars r0 with
            | Some (k, r1) =>
                match skip_ws r1 with
                | colon :: r2 =>
                    if Ascii.eqb colon ":" then
                      match parse_value f r2 with
                      | Some (v, rest) =>
                          match skip_ws rest with
                          | c :: r =>
                              if Ascii.eqb c "}" then Some ([(k, v)], r)
                              else if Ascii.eqb c "," then
                                match parse_members f r with
                                | Some (kvs, rest') => Some ((k, v) :: kvs, rest')
                                | None => None
                                end
                              else None
                          | [] => None
                          end
                      | None => None
                      end
                    else None
                | [] => None
                end
            | None => None
            end
          else None
      | [] => None
      end
  end.

(** [JSON.parse(s)]; [None] is the [SyntaxError]. *)
Definition parse (s : string) : option json :=
  let l := list_ascii_of_string s in
  match parse_value (S (length l)) l with
  | Some (v, rest) =>
      match skip_ws rest with
      | [] => Some v
      | _ => None
      end
  | None => None
  end.

End Json.

(* ===================================================================== *)
(** ** The [URL] class *)
(* ===================================================================== *)

Module Url.

(** The model covers absolute URLs [scheme://host[:port][tail]] of the
    schemes below (the ones with a default port); [tail] is the path,
    query and fragment, carried as written.  Other inputs are treated
    as the [TypeError] of [new URL]. *)
Inductive Scheme : Type := Http | Https | Ws | Wss | Ftp.

Definition scheme_name (s : Scheme) : string :=
  match s with
  | Http => "http" | Https => "https" | Ws => "ws" | Wss => "wss" | Ftp => "ftp"
  end.

Definition scheme_of_name (n : string) : option Scheme :=
  if String.eqb n "http" then Some Http
  else if String.eqb n "https" then Some Https
  else if String.eqb n "ws" then Some Ws
  else if String.eqb n "wss" then Some Wss
  else if String.eqb n "ftp" then Some Ftp
  else None.

Definition default_port (s : Scheme) : N :=
  match s with
  | Http => 80 | Https => 443 | Ws => 80 | Wss => 443 | Ftp => 21
  end%N.

Record URL : Type := mkURL {
  scheme : Scheme;
  hostname : string;
  port_num : option N;
  tail : string
}.

(** A port that is the scheme's default is stored as absent. *)
Definition norm_port (s : Scheme) (p : option N) : option N :=
  match p with
  | Some n => if N.eqb n (default_port s) then None else Some n
  | None => None
  end.

Fixpoint span (p : ascii -> bool) (s : string) : string * string :=
  match s with
  | EmptyString => (EmptyString, EmptyString)
  | String c r =>
      if p c then let '(a, b) := span p r in (String c a, b)
      else (EmptyString, s)
  end.

Definition is_digit (c : ascii) : bool :=
  let n := nat_of_ascii c in Nat.leb 48 n && Nat.leb n 57.

Definition is_host_char (c : ascii) : bool :=
  let n := nat_of_ascii c in
  is_digit c || (Nat.leb 65 n && Nat.leb n 90) || (Nat.leb 97 n && Nat.leb n 122)
  || Ascii.eqb c "." || Ascii.eqb c "-" || Ascii.eqb c "_".

Fixpoint decimal (acc : N) (s : string) : N :=
  match s with
  | EmptyString => acc
  | String c r => decimal (acc * 10 + N.of_nat (nat_of_ascii c - 48))%N r
  end.

Definition starts_tail (s : string) : bool :=
  match s with
  | EmptyString => true
  | String c _ => Ascii.eqb c "/" || Ascii.eqb c "?" || Ascii.eqb c "#"
  end.

Definition norm_tail (s : string) : string :=
  match s with
  | EmptyString => "/"
  | String c _ => if Ascii.eqb c "/" then s else "/" +:+ s
  end.

(** [new URL(s)] *)
Definition parse (s : string) : option URL :=
  let '(name, r0) := span (fun c => negb (Ascii.eqb c ":")) s in
  match scheme_of_name (JsString.toLowerCase name) with
  | None => None
  | Some sc =>
      if negb (String.prefix "://" r0) then None else
      let '(host, r1) := span is_host_char (String.substring 3 (String.length r0 - 3) r0) in
      if String.eqb host "" then None else
      match r1 with
      | String ":" r2 =>
          let '(ds, r3) := span is_digit r2 in
          let p := if String.eqb ds "" then None else Some (decimal 0 ds) in
          if negb (starts_tail r3) then None
          else if N.ltb 65535 (default 0%N p) then None
          else Some (mkURL sc (JsString.toLowerCase host) (norm_port sc p) (norm_tail r3))
      | _ =>
          if negb (starts_tail r1) then None
          else Some (mkURL sc (JsString.toLowerCase host) None (norm_tail r1))
      end
  end.

(** [u.protocol = v]: the characters of [v] before its first colon
    name the new scheme; a name outside the schemes above leaves the
    URL as it is, and a port that is the new scheme's default is
    dropped. *)
Definition set_protocol (v : string) (u : URL) : URL :=
  let '(name, _) := span (fun c => negb (Ascii.eqb c ":")) v in
  match scheme_of_name (JsString.toLowerCase name) with
  | Some sc => mkURL sc (hostname u) (norm_port sc (port_num u)) (tail u)
  | None => u
  end.

(** [u.protocol] *)
Definition protocol (u : URL) : string := scheme_name (scheme u) +:+ ":".

(** [u.port] *)
Definition port (u : URL) : string :=
  match port_num u with
  | Some n => JsString.of_N n
  | None => ""
  end.

(** [u.port = v] *)
Definition set_port (v : string) (u : URL) : URL :=
  if String.eqb v "" then mkURL (scheme u) (hostname u) None (tail u)
  else
    let '(ds, _) := span is_digit v in
    if String.eqb ds "" then u
    else if N.ltb 65535 (decimal 0 ds) then u
    else mkURL (scheme u) (hostname u) (norm_port (scheme u) (Some (decimal 0 ds))) (tail u).

(** [u.toString()] *)
Definition toString (u : URL) : string :=
  protocol u +:+ "//" +:+ hostname u +:+
  match port_num u with
  | Some n => ":" +:+ JsString.of_N n
  | None => ""
  end +:+ tail u.

End Url.

(* ===================================================================== *)
(** ** [TunnelHTTP2Handler]: the HTTP forwarder and the WebSocket bridge *)
(* ===================================================================== *)

Inductive ReadyState : Type := CONNECTING | OPEN | CLOSING | CLOSED.

#[global] Instance ReadyState_eq_dec : EqDecision ReadyState.
Proof. solve_decision. Defined.

Module Http2Handler.

Definition HOP_BY_HOP_HEADERS : gset string :=
  {[ "connection"; "keep-alive"; "proxy-authenticate"; "proxy-authorization";
     "te"; "trailers"; "transfer-encoding" ]}.

(** [set.has(k)] *)
Definition has (set : gset string) (k : string) : bool := bool_decide (k ∈ set).

(** A header value is a string or an array of strings. *)
Inductive HeaderValue : Type :=
| HStr (s : string)
| HList (l : list string).

(** [String(value)] *)
Definition value_to_string (v : HeaderValue) : string :=
  match v with
  | HStr s => s
  | HList l => String.concat "," l
  end.

Record TunnelHTTP2HandlerOpts : Type := mkOpts {
  localHost : string;
  localPort : N;
  localHttps : bool;
  streams : list nat
}.

(** The handler object: its options and the state of its session
    server. *)
Record TunnelHTTP2Handler : Type := mkHandler {
  opts : TunnelHTTP2HandlerOpts;
  listening : bool;
  fed : list nat;
  serverCloseCalls : nat
}.

Definition new_handler (o : TunnelHTTP2HandlerOpts) : TunnelHTTP2Handler :=
  mkHandler o false [] 0.

(** [startListening()]: the request listener is installed and every
    stream is fed into the server. *)
Definition startListening (h : TunnelHTTP2Handler) : TunnelHTTP2Handler :=
  mkHandler (opts h) true (fed h ++ streams (opts h)) (serverCloseCalls h).

(** [close()] *)
Definition close (h : TunnelHTTP2Handler) : TunnelHTTP2Handler :=
  mkHandler (opts h) false (fed h) (S (serverCloseCalls h)).

(** *** Virtual requests and responses *)

Record Request : Type := mkRequest {
  method : option string;
  url : option string;
  req_headers : gmap string HeaderValue
}.

Inductive Route : Type := ToWebSocketBridge | ToHttpForwarder.

(** The request listener of [startListening]: the [request] event and
    the forwarder chosen. *)
Definition on_request (req : Request) : (string * string) * Route :=
  ((default "unknown" (method req), default "unknown" (url req)),
   match req_headers req !! "upgrade" with
   | Some (HStr "websocket") => ToWebSocketBridge
   | _ => ToHttpForwarder
   end).

(** The virtual response: [res.headersSent], the status line and
    headers written, the body chunks written, whether [end] was called
    and whether the stream is closed ([res.closed]). *)
Record Response : Type := mkResponse {
  headersSent : bool;
  statusCode : nat;
  headers : gmap string HeaderValue;
  body : list string;
  ended : bool;
  closed : bool
}.

Definition fresh_response : Response := mkResponse false 200 ∅ [] false false.

(** [res.writeHead(status, headers)] throws once headers were sent. *)
Definition writeHead (status : nat) (hs : gmap string HeaderValue) (r : Response)
  : string + Response :=
  if headersSent r then inl "ERR_HTTP2_HEADERS_SENT"
  else inr (mkResponse true status hs (body r) (ended r) (closed r)).

(** [res.write(chunk)]: no effect on an ended or closed response;
    otherwise pending headers go out with the chunk. *)
Definition write (chunk : string) (r : Response) : Response :=
  if ended r || closed r then r
  else mkResponse true (statusCode r) (headers r) (body r ++ [chunk]) false false.

(** [res.end(chunk)] and [res.end()] *)
Definition end_ (chunk : option string) (r : Response) : Response :=
  if ended r || closed r then r
  else
    let r' := match chunk with Some c => write c r | None => r end in
    mkResponse true (statusCode r') (headers r') (body r') true (closed r').

(** *** The HTTP forwarder, [handleHttpRequest] *)

(** The loop over [Object.entries(req.headers)] followed by the two
    [delete]s. *)
Definition headersToForward (hs : gmap string HeaderValue) : gmap string HeaderValue :=
  let copied :=
    map_fold
      (fun key value acc =>
         if negb (JsString.startsWith key ":")
            && negb (has HOP_BY_HOP_HEADERS (JsString.toLowerCase key))
         then <[key := value]> acc else acc)
      ∅ hs in
  delete "upgrade" (delete "host" copied).

(** The loop over [Object.entries(clientRes.headers)]. *)
Definition responseHeaders (hs : gmap string HeaderValue) : gmap string HeaderValue :=
  map_fold
    (fun key value acc =>
       if negb (has HOP_BY_HOP_HEADERS (JsString.toLowerCase key))
       then <[key := value]> acc else acc)
    ∅ hs.

(** The request made to the local server. *)
Record LocalRequest : Type := mkLocalRequest {
  lr_https : bool;
  lr_hostname : string;
  lr_port : N;
  lr_path : option string;
  lr_method : option string;
  lr_headers : gmap string HeaderValue
}.

Definition handleHttpRequest (o : TunnelHTTP2HandlerOpts) (req : Request) : LocalRequest :=
  mkLocalRequest (localHttps o) (localHost o) (localPort o) (url req) (method req)
    (headersToForward (req_headers req)).

(** One exchange: the virtual response and the lines written with
    [console.error]. *)
Record Exchange : Type := mkExchange {
  res : Response;
  console : list string
}.

Definition TEXT_PLAIN : gmap string HeaderValue := {[ "content-type" := HStr "text/plain" ]}.

(** [clientRes.statusCode || 502] *)
Definition status_or_502 (s : option nat) : nat :=
  match s with
  | Some (S n) => S n
  | _ => 502
  end.

(** The callback of the local request: the local response arrived. *)
Definition on_local_response (status : option nat) (hs : gmap string HeaderValue)
    (x : Exchange) : string + Exchange :=
  match writeHead (status_or_502 status) (responseHeaders hs) (res x) with
  | inr r => inr (mkExchange r (console x))
  | inl e => inl e
  end.

(** [pipeline(clientRes, res, ...)]: a body chunk, the end of the
    body, and the callback on failure. *)
Definition on_response_data (chunk : string) (x : Exchange) : Exchange :=
  mkExchange (write chunk (res x)) (console x).

Definition on_response_end (x : Exchange) : Exchange :=
  mkExchange (end_ None (res x)) (console x).


(** The callback of [pipeline(req, clientReq, ...)] on failure. *)
Definition on_request_pipeline_error (message : string) (x : Exchange) : string + Exchange :=
  let log := console x ++ ["Request pipeline error: " +:+ message] in
  if negb (headersSent (res x)) then
    match writeHead 502 TEXT_PLAIN (res x) with
    | inr r => inr (mkExchange (end_ (Some "Bad Gateway") r) log)
    | inl e => inl e
    end
  else inr (mkExchange (end_ (Some "Bad Gateway") (res x)) log).

(** The [error] listener of the local request. *)
Definition on_local_request_error (message : string) (x : Exchange) : string + Exchange :=
  let log := console x ++ ["Local request error: " +:+ message] in
  let text := "Failed to connect to local server: " +:+ message in
  if negb (headersSent (res x)) then
    match writeHead 502 TEXT_PLAIN (res x) with
    | inr r => inr (mkExchange (end_ (Some text) r) log)
    | inl e => inl e
    end
  else inr (mkExchange (end_ (Some text) (res x)) log).

(** *** The WebSocket bridge, [handleWebSocketUpgrade] *)

Definition localWsUrl (o : TunnelHTTP2HandlerOpts) (req : Request) : string :=
  (if localHttps o then "wss" else "ws") +:+ "://" +:+ localHost o +:+ ":"
  +:+ JsString.of_N (localPort o) +:+ JsString.template (url req).

Definition wsHeaders (hs : gmap string HeaderValue) : gmap string string :=
  map_fold
    (fun key value acc =>
       if negb (JsString.startsWith key ":")
          && negb (has HOP_BY_HOP_HEADERS (JsString.toLowerCase key))
          && negb (String.eqb (JsString.toLowerCase key) "host")
          && negb (String.eqb (JsString.toLowerCase key) "upgrade")
       then <[key := value_to_string value]> acc else acc)
    ∅ hs.

(** The local WebSocket: its [readyState], the chunks handed to
    [send] and the number of [close] calls. *)
Record LocalWs : Type := mkLocalWs {
  readyState : ReadyState;
  sent : list string;
  closeCalls : nat
}.

Definition ws_send (chunk : string) (w : LocalWs) : LocalWs :=
  mkLocalWs (readyState w) (sent w ++ [chunk]) (closeCalls w).

Definition ws_close (w : LocalWs) : LocalWs :=
  mkLocalWs CLOSING (sent w) (S (closeCalls w)).

(** The bridge of one upgrade exchange.  [bridged] tells that the
    [open] listener has run and installed the forwarding listeners;
    until then the virtual request stream is paused and holds what
    arrives ([held], [held_end]). *)
Record Bridge : Type := mkBridge {
  localWs : LocalWs;
  bres : Response;
  bridged : bool;
  held : list string;
  held_end : bool;
  blog : list string
}.

Definition new_bridge : Bridge :=
  mkBridge (mkLocalWs CONNECTING [] 0) fresh_response false [] false [].

Definition with_localWs (f : LocalWs -> LocalWs) (b : Bridge) : Bridge :=
  mkBridge (f (localWs b)) (bres b) (bridged b) (held b) (held_end b) (blog b).

Definition with_bres (f : Response -> Response) (b : Bridge) : Bridge :=
  mkBridge (localWs b) (f (bres b)) (bridged b) (held b) (held_end b) (blog b).

(** The [data] listener of the virtual request. *)
Definition on_req_data (chunk : string) (b : Bridge) : Bridge :=
  if bool_decide (readyState (localWs b) = OPEN)
  then with_localWs (ws_send chunk) b
  else b.

(** The [end] listener of the virtual request. *)
Definition on_req_end (b : Bridge) : Bridge :=
  if bool_decide (readyState (localWs b) = OPEN)
  then with_localWs ws_close b
  else b.

(** The [message] listener of the local WebSocket. *)
Definition on_ws_message (data : string) (b : Bridge) : Bridge :=
  if negb (closed (bres b)) then with_bres (write data) b else b.

(** The [close] listener of the local WebSocket. *)
Definition on_ws_close (b : Bridge) : Bridge :=
  if negb (closed (bres b)) then with_bres (end_ None) b else b.

(** The [open] listener of the local WebSocket: the 200 goes out and
    the four listeners are installed. *)
Definition on_ws_open (b : Bridge) : string + Bridge :=
  match writeHead 200 ∅ (bres b) with
  | inr r => inr (mkBridge (localWs b) r true (held b) (held_end b) (blog b))
  | inl e => inl e
  end.

(** The [error] listener of the local WebSocket. *)
Definition on_ws_error (message : string) (b : Bridge) : string + Bridge :=
  let log := blog b ++ ["Local WebSocket error: " +:+ message] in
  let text := "Failed to connect to local WebSocket: " +:+ message in
  if negb (headersSent (bres b)) then
    match writeHead 502 TEXT_PLAIN (bres b) with
    | inr r =>
        inr (mkBridge (localWs b) (end_ (Some text) r) (bridged b) (held b) (held_end b) log)
    | inl e => inl e
    end
  else
    inr (mkBridge (localWs b) (end_ (Some text) (bres b)) (bridged b) (held b) (held_end b) log).

(** What happens to a bridge: the local socket opens, fails, changes
    state, delivers a message or closes; the virtual stream delivers
    a chunk or ends. *)
Inductive BridgeEvent : Type :=
| LocalOpened
| LocalFailed (message : string)
| LocalState (s : ReadyState)
| LocalMessage (data : string)
| LocalClosed
| VirtualData (chunk : string)
| VirtualEnd.

Definition set_readyState (s : ReadyState) (b : Bridge) : Bridge :=
  with_localWs (fun w => mkLocalWs s (sent w) (closeCalls w)) b.

(** The paused stream starts to flow: what it held goes to the new
    listeners. *)
Definition release (b : Bridge) : Bridge :=
  let b1 := foldl (fun acc chunk => on_req_data chunk acc) b (held b) in
  let b2 := if held_end b then on_req_end b1 else b1 in
  mkBridge (localWs b2) (bres b2) (bridged b2) [] false (blog b2).

(** One event, delivered to the listeners installed at that time. *)
Definition bridge_step (e : BridgeEvent) (b : Bridge) : string + Bridge :=
  match e with
  | LocalOpened =>
      match on_ws_open (set_readyState OPEN b) with
      | inr b' => inr (release b')
      | inl err => inl err
      end
  | LocalFailed message => on_ws_error message (set_readyState CLOSED b)
  | LocalState s => inr (set_readyState s b)
  | LocalMessage data => inr (if bridged b then on_ws_message data b else b)
  | LocalClosed =>
      let b' := set_readyState CLOSED b in
      inr (if bridged b then on_ws_close b' else b')
  | VirtualData chunk =>
      inr (if bridged b then on_req_data chunk b
           else mkBridge (localWs b) (bres b) false (held b ++ [chunk]) (held_end b) (blog b))
  | VirtualEnd =>
      inr (if bridged b then on_req_end b
           else mkBridge (localWs b) (bres b) false (held b) true (blog b))
  end.

Fixpoint bridge_run (es : list BridgeEvent) (b : Bridge) : string + Bridge :=
  match es with
  | [] => inr b
  | e :: r =>
      match bridge_step e b with
      | inr b' => bridge_run r b'
      | inl err => inl err
      end
  end.

End Http2Handler.

(* ===================================================================== *)
(** ** [Tunnel]: the controller *)
(* ===================================================================== *)

Module Tunnel.

Import Json.

Definition DEFAULT_SERVER_HOST : string := "abbreviated.ai".
Definition DEFAULT_SERVER_PORT : N := 443.

(** The options as the caller gives them: [None] is an absent
    property. *)
Record TunnelOptions : Type := mkTunnelOptions {
  o_port : N;
  o_localHost : option string;
  o_serverHost : option string;
  o_serverPort : option N;
  o_apiPort : option N;
  o_subdomain : option string;
  o_apiToken : option string;
  o_localHttps : option bool;
  o_printRequests : option bool
}.

(** [this.opts], with the defaults of the constructor filled in. *)
Record Opts : Type := mkOpts {
  port : N;
  localHost : string;
  serverHost : string;
  serverPort : N;
  apiPort : N;
  subdomain : option string;
  apiToken : option string;
  localHttps : option bool;
  printRequests : option bool
}.

Definition constructor_opts (o : TunnelOptions) : Opts :=
  mkOpts (o_port o)
    (default "localhost" (o_localHost o))
    (default DEFAULT_SERVER_HOST (o_serverHost o))
    (default DEFAULT_SERVER_PORT (o_serverPort o))
    (default (default DEFAULT_SERVER_PORT (o_serverPort o)) (o_apiPort o))
    (o_subdomain o) (o_apiToken o) (o_localHttps o) (o_printRequests o).

Record TunnelInfo : Type := mkTunnelInfo {
  id : option json;
  url : string;
  remoteHost : string;
  remotePort : N
}.

(** An [Error] is its message. *)
Definition Error : Type := string.

(** *** [checkLocalServer] *)

Inductive ProbeOutcome : Type :=
| ProbeResponded
| ProbeTimeout
| ProbeError (code : option string) (message : string).

Definition local_address (o : Opts) : string :=
  localHost o +:+ ":" +:+ JsString.of_N (port o).

Definition checkLocalServer (o : Opts) (p : ProbeOutcome) : Error + unit :=
  match p with
  | ProbeResponded => inr tt
  | ProbeTimeout =>
      inl ("Local server at " +:+ local_address o +:+ " is not responding (timeout)")
  | ProbeError code message =>
      if bool_decide (code = Some "ECONNREFUSED") then
        inl ("Local server at " +:+ local_address o +:+ " is not running (connection refused)")
      else
        inl ("Could not reach local server at " +:+ local_address o +:+ ": " +:+ message)
  end.

(** *** [getTunnelInfo] *)

(** What comes back from the allocation request: a response with its
    status code and body, a timeout, or a transport error. *)
Inductive AllocOutcome : Type :=
| AllocResponse (statusCode : option nat) (data : string)
| AllocTimeout
| AllocError (code : option string) (message : string).

Definition scheme (o : Opts) : string :=
  if N.eqb (apiPort o) 443 then "https" else "http".

Definition portSuffix (o : Opts) : string :=
  if N.eqb (apiPort o) 443 || N.eqb (apiPort o) 80 then ""
  else ":" +:+ JsString.of_N (apiPort o).

Definition allocation_url (o : Opts) : string :=
  scheme o +:+ "://" +:+ serverHost o +:+ portSuffix o +:+ "/api/v1/ci-tunnels/".

(** The [headers] object of the allocation request. *)
Definition allocation_headers (o : Opts) : list (string * string) :=
  ("Content-Type", "application/json")
  :: (if JsString.truthy (apiToken o)
      then [("Authorization", "Bearer " +:+ JsString.template (apiToken o))]
      else []).

(** The [reason] of a response whose status is not 200. *)
Definition reason (status : nat) (data : string) : string :=
  if Nat.eqb status 503 || Nat.eqb status 502 || Nat.eqb status 504 then
    "Tunnel server is temporarily unavailable (HTTP " +:+ JsString.of_nat status +:+ ")"
  else if Nat.eqb status 401 || Nat.eqb status 403 then
    "Authentication failed (HTTP " +:+ JsString.of_nat status
    +:+ ") — check your API token"
  else if Nat.eqb status 429 then
    "Rate limited by tunnel server (HTTP 429) — try again later"
  else
    let plain := JsString.trim (JsString.collapse_spaces (JsString.strip_tags data)) in
    "HTTP " +:+ JsString.of_nat status +:+
    (if negb (String.eqb plain "") then ": " +:+ JsString.slice0 120 plain else "").

(** The rewrite of the parsed URL when the allocation went over
    https. *)
Definition rewrite_url (o : Opts) (parsedUrl : Url.URL) : Url.URL :=
  if String.eqb (scheme o) "https" then
    let u := Url.set_protocol "https:" parsedUrl in
    if String.eqb (Url.port u) "80" then Url.set_port "" u else u
  else parsedUrl.

(** The body of the [try] block; [None] is any exception thrown in
    it. *)
Definition parse_response (o : Opts) (data : string) : option TunnelInfo :=
  response ← Json.parse data;
  u ← get_prop response "url";
  parsedUrl ← Url.parse (to_string_opt u);
  tunnel_id ← get_prop response "tunnel_id";
  Some (mkTunnelInfo tunnel_id (Url.toString (rewrite_url o parsedUrl))
          (serverHost o) (serverPort o)).

Definition server_address (o : Opts) : string :=
  serverHost o +:+ ":" +:+ JsString.of_N (apiPort o).

Definition getTunnelInfo (o : Opts) (out : AllocOutcome) : Error + TunnelInfo :=
  match out with
  | AllocResponse statusCode data =>
      if negb (bool_decide (statusCode = Some 200)) then
        let status := default 0 statusCode in
        inl ("Failed to create tunnel: " +:+ reason status data)
      else
        match parse_response o data with
        | Some info => inr info
        | None => inl ("Failed to parse tunnel response: " +:+ data)
        end
  | AllocTimeout =>
      inl ("Tunnel server at " +:+ server_address o +:+ " timed out")
  | AllocError code message =>
      if bool_decide (code = Some "ECONNREFUSED") then
        inl ("Tunnel server at " +:+ server_address o
             +:+ " is not running (connection refused)")
      else if bool_decide (code = Some "ENOTFOUND") then
        inl ("Tunnel server host '" +:+ serverHost o
             +:+ "' could not be resolved — check your network connection")
      else if bool_decide (code = Some "ETIMEDOUT")
              || JsString.includes message "socket hang up" then
        inl ("Tunnel server at " +:+ server_address o +:+ " is not responding")
      else inl message
  end.

(** *** The state of a tunnel and of the objects it reaches *)

(** A transport channel: the request of its handshake, its
    [readyState], its index in the pool once the listeners of the
    tunnel are installed on it, and the number of [close] calls. *)
Record WebSocket : Type := mkWebSocket {
  ws_url : string;
  ws_headers : list (string * string);
  readyState : ReadyState;
  ws_index : option nat;
  ws_closeCalls : nat
}.

Inductive Event : Type :=
| EvOpen (url : string)
| EvClose
| EvError (err : Error)
| EvRequest (method path : string)
| EvTunnelDone (payload : json).

Record TunnelObj : Type := mkTunnel {
  opts : Opts;
  closed : bool;
  h2Handler : option nat;
  wsConnections : list nat;
  tunnelInfo : option TunnelInfo;
  public_url : option string;
  tunnelId : option (option json)
}.

(** The tunnel and the store of the objects it refers to; sockets and
    handlers are referred to by their position in the store. *)
Record World : Type := mkWorld {
  this : TunnelObj;
  sockets : list WebSocket;
  handlers : list Http2Handler.TunnelHTTP2Handler;
  emitted : list Event;
  console : list string
}.

Definition new_Tunnel (o : TunnelOptions) : World :=
  mkWorld (mkTunnel (constructor_opts o) false None [] None None None) [] [] [] [].

Definition with_this (f : TunnelObj -> TunnelObj) (w : World) : World :=
  mkWorld (f (this w)) (sockets w) (handlers w) (emitted w) (console w).

Definition set_closed (b : bool) (t : TunnelObj) : TunnelObj :=
  mkTunnel (opts t) b (h2Handler t) (wsConnections t) (tunnelInfo t) (public_url t) (tunnelId t).

Definition set_h2Handler (h : option nat) (t : TunnelObj) : TunnelObj :=
  mkTunnel (opts t) (closed t) h (wsConnections t) (tunnelInfo t) (public_url t) (tunnelId t).

Definition set_wsConnections (l : list nat) (t : TunnelObj) : TunnelObj :=
  mkTunnel (opts t) (closed t) (h2Handler t) l (tunnelInfo t) (public_url t) (tunnelId t).

Definition set_tunnelInfo (i : TunnelInfo) (t : TunnelObj) : TunnelObj :=
  mkTunnel (opts t) (closed t) (h2Handler t) (wsConnections t)
    (Some i) (Some (url i)) (Some (id i)).

Definition with_sockets (f : list WebSocket -> list WebSocket) (w : World) : World :=
  mkWorld (this w) (f (sockets w)) (handlers w) (emitted w) (console w).

Definition with_handlers
    (f : list Http2Handler.TunnelHTTP2Handler -> list Http2Handler.TunnelHTTP2Handler)
    (w : World) : World :=
  mkWorld (this w) (sockets w) (f (handlers w)) (emitted w) (console w).

Definition add_event (e : Event) (w : World) : World :=
  mkWorld (this w) (sockets w) (handlers w) (emitted w ++ [e]) (console w).

Definition add_log (line : string) (w : World) : World :=
  mkWorld (this w) (sockets w) (handlers w) (emitted w) (console w ++ [line]).

Definition set_readyState (s : ReadyState) (x : WebSocket) : WebSocket :=
  mkWebSocket (ws_url x) (ws_headers x) s (ws_index x) (ws_closeCalls x).

Definition set_index (i : nat) (x : WebSocket) : WebSocket :=
  mkWebSocket (ws_url x) (ws_headers x) (readyState x) (Some i) (ws_closeCalls x).

(** [ws.close()] *)
Definition ws_close (x : WebSocket) : WebSocket :=
  mkWebSocket (ws_url x) (ws_headers x) CLOSING (ws_index x) (S (ws_closeCalls x)).

(** *** Computations: state, and exceptions that keep the state *)

Definition M (A : Type) : Type := World -> (Error + A) * World.

Definition ret {A} (a : A) : M A := fun w => (inr a, w).

Definition bind {A B} (m : M A) (k : A -> M B) : M B :=
  fun w =>
    match m w with
    | (inr a, w') => k a w'
    | (inl e, w') => (inl e, w')
    end.

Definition throw {A} (e : Error) : M A := fun w => (inl e, w).

Definition try_catch {A} (m : M A) (handler : Error -> M A) : M A :=
  fun w =>
    match m w with
    | (inl e, w') => handler e w'
    | r => r
    end.

Definition gets {A} (f : World -> A) : M A := fun w => (inr (f w), w).

Definition modify (f : World -> World) : M unit := fun w => (inr tt, f w).

Definition lift {A} (r : Error + A) : M A := fun w => (r, w).

Notation "x <- c ;; k" := (bind c (fun x => k))
  (at level 100, c at next level, right associativity).
Notation "c ;; k" := (bind c (fun _ => k))
  (at level 100, right associativity).

(** [this.emit(...)]: the event is recorded; the listeners are the
    caller's. *)
Definition emit (e : Event) : M unit := modify (add_event e).

(** *** [close] *)

Definition is_open_or_connecting (s : ReadyState) : bool :=
  bool_decide (s = OPEN) || bool_decide (s = CONNECTING).

Fixpoint close_each (conns : list nat) : M unit :=
  match conns with
  | [] => ret tt
  | ws :: rest =>
      s <- gets (fun w => readyState <$> sockets w !! ws) ;;
      (if default false (is_open_or_connecting <$> s)
       then modify (with_sockets (alter ws_close ws))
       else ret tt) ;;
      close_each rest
  end.

Definition close : M unit :=
  modify (with_this (set_closed true)) ;;
  h <- gets (fun w => h2Handler (this w)) ;;
  match h with
  | Some r =>
      modify (with_handlers (alter Http2Handler.close r)) ;;
      modify (with_this (set_h2Handler None))
  | None => ret tt
  end ;;
  conns <- gets (fun w => wsConnections (this w)) ;;
  close_each conns ;;
  modify (with_this (set_wsConnections [])) ;;
  emit EvClose.

(** *** The listeners installed on each channel *)

Definition on_error (err : Error) : M unit :=
  c <- gets (fun w => closed (this w)) ;;
  if negb c then emit (EvError err) else ret tt.

Definition on_close (i : nat) : M unit :=
  c <- gets (fun w => closed (this w)) ;;
  if negb c
  then modify (add_log ("WebSocket " +:+ JsString.of_nat (i + 1) +:+ " closed"))
  else ret tt.

(** [payload.type === "tunnel_done"] *)
Definition is_tunnel_done (t : option json) : bool :=
  match t with
  | Some (JStr s) => String.eqb s "tunnel_done"
  | _ => false
  end.

Definition on_message (data : string) (isBinary : bool) : M unit :=
  c <- gets (fun w => closed (this w)) ;;
  if isBinary || c then ret tt
  else
    try_catch
      (payload <- match Json.parse data with
                  | Some v => ret v
                  | None => throw "SyntaxError"
                  end ;;
       t <- match get_prop payload "type" with
            | Some t => ret t
            | None => throw "TypeError"
            end ;;
       if is_tunnel_done t
       then emit (EvTunnelDone payload) ;; close
       else ret tt)
      (fun _ => ret tt).

(** What a channel delivers to its listeners. *)
Inductive ChannelEvent : Type :=
| WsMessage (data : string) (isBinary : bool)
| WsError (message : string)
| WsClose.

(** An event on the socket [ws]; sockets without listeners (the one
    of a failed handshake) deliver nothing. *)
Definition deliver (ws : nat) (e : ChannelEvent) : M unit :=
  i <- gets (fun w => sockets w !! ws ≫= ws_index) ;;
  match i with
  | None => ret tt
  | Some i =>
      match e with
      | WsMessage data isBinary => on_message data isBinary
      | WsError message => on_error message
      | WsClose =>
          modify (with_sockets (alter (set_readyState CLOSED) ws)) ;;
          on_close i
      end
  end.

Fixpoint deliver_all (es : list (nat * ChannelEvent)) : M unit :=
  match es with
  | [] => ret tt
  | (ws, e) :: rest => deliver ws e ;; deliver_all rest
  end.

(** *** [connectToServer] *)

Inductive HandshakeOutcome : Type :=
| HandshakeOpen
| HandshakeError (message : string).

(** What the surroundings answer during [open]: the probe of the
    local server, the allocation request, the number of CPUs, and
    the handshake of the channel opened in round [i]. *)
Record Env : Type := mkEnv {
  probe : ProbeOutcome;
  allocation : AllocOutcome;
  cpus : nat;
  handshake : nat -> HandshakeOutcome
}.

Definition remote_address (ti : TunnelInfo) : string :=
  remoteHost ti +:+ ":" +:+ JsString.of_N (remotePort ti).

Definition connect_url (ti : TunnelInfo) : string :=
  let wsScheme := if N.eqb (remotePort ti) 443 then "wss" else "ws" in
  let wsPortSuffix :=
    if N.eqb (remotePort ti) 443 || N.eqb (remotePort ti) 80 then ""
    else ":" +:+ JsString.of_N (remotePort ti) in
  wsScheme +:+ "://" +:+ remoteHost ti +:+ wsPortSuffix
  +:+ "/connect?tunnel_id=" +:+ to_string_opt (id ti).

(** The [headers] object of a channel handshake. *)
Definition handshake_headers (o : Opts) : list (string * string) :=
  [("Authorization", "Bearer " +:+ JsString.template (apiToken o))].

(** [new WebSocket(url, {headers})] *)
Definition new_WebSocket (u : string) (hs : list (string * string)) : M nat :=
  r <- gets (fun w => length (sockets w)) ;;
  modify (with_sockets (fun l => l ++ [mkWebSocket u hs CONNECTING None 0])) ;;
  ret r.

(** The awaited promise: resolved by [open], rejected by [error]. *)
Definition await_handshake (out : HandshakeOutcome) (ti : TunnelInfo) (ws : nat) : M unit :=
  match out with
  | HandshakeOpen => modify (with_sockets (alter (set_readyState OPEN) ws))
  | HandshakeError message =>
      modify (with_sockets (alter (set_readyState CLOSED) ws)) ;;
      throw ("WebSocket connection failed: " +:+ message
             +:+ " (" +:+ remote_address ti +:+ ")")
  end.

(** The loop [for (let i = 0; i < numConnections; i++)], with [todo]
    rounds left; the stream made of a socket is named by the
    socket. *)
Fixpoint connect_loop (env : Env) (ti : TunnelInfo) (todo i : nat) (streams : list nat)
  : M (list nat) :=
  match todo with
  | O => ret streams
  | S todo' =>
      o <- gets (fun w => opts (this w)) ;;
      ws <- new_WebSocket (connect_url ti) (handshake_headers o) ;;
      await_handshake (handshake env i) ti ws ;;
      modify (with_sockets (alter (set_index i) ws)) ;;
      modify (with_this (fun t => set_wsConnections (wsConnections t ++ [ws]) t)) ;;
      connect_loop env ti todo' (S i) (streams ++ [ws])
  end.

Definition numConnections (env : Env) : nat := Nat.min (cpus env) 16.

Definition connectToServer (env : Env) : M unit :=
  info <- gets (fun w => tunnelInfo (this w)) ;;
  match info with
  | None => throw "Tunnel info not available"
  | Some ti =>
      streams <- connect_loop env ti (numConnections env) 0 [] ;;
      o <- gets (fun w => opts (this w)) ;;
      h <- gets (fun w => length (handlers w)) ;;
      modify (with_handlers (fun l => l ++ [Http2Handler.new_handler
        (Http2Handler.mkOpts (localHost o) (port o) (default false (localHttps o)) streams)])) ;;
      modify (with_this (set_h2Handler (Some h))) ;;
      modify (with_handlers (alter Http2Handler.startListening h))
  end.

(** *** [open] and [createTunnel] *)

Definition open (env : Env) : M unit :=
  try_catch
    (o <- gets (fun w => opts (this w)) ;;
     lift (checkLocalServer o (probe env)) ;;
     info <- lift (getTunnelInfo o (allocation env)) ;;
     modify (with_this (set_tunnelInfo info)) ;;
     connectToServer env ;;
     u <- gets (fun w => public_url (this w)) ;;
     emit (EvOpen (JsString.template u)))
    (fun error => emit (EvError error) ;; throw error).

Definition createTunnel (o : TunnelOptions) (env : Env) : (Error + unit) * World :=
  open env (new_Tunnel o).

End Tunnel.

(* ===================================================================== *)
(** ** Sample inputs *)
(* ===================================================================== *)

Module Samples.

Import Tunnel.

(** JSON text, written with apostrophes in place of the quotation
    marks. *)
Fixpoint json_text (s : string) : string :=
  match s with
  | EmptyString => EmptyString
  | String c r => String (if Ascii.eqb c "'" then Json.dquote else c) (json_text r)
  end.

Definition options : TunnelOptions :=
  mkTunnelOptions 3000 None None None None None None None None.

Definition tunnel_body : string :=
  json_text "{'id':7,'tunnel_id':'abc','url':'http://abc.abbreviated.ai/'}".

Definition example_body : string := json_text "{'url':'http://x.example/'}".

Definition tunnel_done_frame : string :=
  json_text "{'type':'tunnel_done','tunnel_id':'abc','data':{'ok':true}}".


(** Every handshake succeeds, on a machine with [p] CPUs. *)
Definition env_ok (p : nat) : Env :=
  mkEnv ProbeResponded (AllocResponse (Some 200) tunnel_body) p (fun _ => HandshakeOpen).

(** Two CPUs; the handshake of the second channel fails. *)
Definition env_second_fails : Env :=
  mkEnv ProbeResponded (AllocResponse (Some 200) tunnel_body) 2
    (fun i => if Nat.eqb i 1 then HandshakeError "socket hang up" else HandshakeOpen).

(** A tunnel opened with [p] CPUs. *)
Definition established (p : nat) : World := snd (createTunnel options (env_ok p)).

Definition example_info : TunnelInfo :=
  mkTunnelInfo None "https://abc.example/" "example" 443.

(** A new tunnel whose allocation has been answered. *)
Definition allocated : World :=
  with_this (set_tunnelInfo example_info) (new_Tunnel options).


(** A bridge whose local socket has opened. *)
Definition open_bridge : Http2Handler.Bridge :=
  match Http2Handler.bridge_step Http2Handler.LocalOpened Http2Handler.new_bridge with
  | inr b => b
  | inl _ => Http2Handler.new_bridge
  end.

End Samples.

(* ===================================================================== *)
(** ** Notions used in the statements *)
(* ===================================================================== *)

Module TunnelNotions.

Import Tunnel.

Definition is_close (e : Event) : bool :=
  match e with
  | EvClose => true
  | _ => false
  end.

(** The number of [close] events emitted so far. *)
Definition close_events (w : World) : nat := length (List.filter is_close (emitted w)).


(** A channel that is neither open nor connecting. *)
Definition not_open (x : WebSocket) : Prop :=
  readyState x <> OPEN /\ readyState x <> CONNECTING.

(** One round of the loop of [close], on the store of sockets. *)
Definition close_socket (ws : nat) (l : list WebSocket) : list WebSocket :=
  if default false (is_open_or_connecting <$> (readyState <$> l !! ws))
  then alter ws_close ws l else l.

(** The channel of round [i] after a successful handshake, and the
    channel of a failed handshake. *)
Definition opened_socket (o : Opts) (ti : TunnelInfo) (i : nat) : WebSocket :=
  mkWebSocket (connect_url ti) (handshake_headers o) OPEN (Some i) 0.

Definition failed_socket (o : Opts) (ti : TunnelInfo) : WebSocket :=
  mkWebSocket (connect_url ti) (handshake_headers o) CLOSED None 0.

(** The world [w] after [n] rounds of the loop that started at round
    [i], followed by the sockets [extra]. *)
Definition pool_world (w : World) (ti : TunnelInfo) (i n : nat) (extra : list WebSocket)
  : World :=
  mkWorld
    (set_wsConnections (wsConnections (this w) ++ seq (length (sockets w)) n) (this w))
    (sockets w ++ map (opened_socket (opts (this w)) ti) (seq i n) ++ extra)
    (handlers w) (emitted w) (console w).

(** The error of a failed handshake: it ends with the remote
    [host:port] in parentheses. *)
Definition handshake_failure (ti : TunnelInfo) (message : string) : Error :=
  "WebSocket connection failed: " +:+ message +:+ " (" +:+ remote_address ti +:+ ")".

(** The handler that [connectToServer] creates and starts over the
    streams [streams]. *)
Definition started_handler (o : Opts) (streams : list nat)
  : Http2Handler.TunnelHTTP2Handler :=
  Http2Handler.startListening
    (Http2Handler.new_handler
       (Http2Handler.mkOpts (localHost o) (port o) (default false (localHttps o)) streams)).




(** The taxonomy of allocation failures by status. *)
Inductive AllocationFailure : Type :=
| ServiceUnavailable
| AuthFailed
| RateLimited
| GenericHttp.

Definition classify (status : nat) : AllocationFailure :=
  if bool_decide (status ∈ [502; 503; 504]) then ServiceUnavailable
  else if bool_decide (status ∈ [401; 403]) then AuthFailed
  else if bool_decide (status = 429) then RateLimited
  else GenericHttp.

Definition failure_message (r : string) : Error := "Failed to create tunnel: " +:+ r.

(** The response body as the generic failure carries it, before the
    cut at 120 characters. *)
Definition plain_body (data : string) : string :=
  JsString.trim (JsString.collapse_spaces (JsString.strip_tags data)).

(** Some position of [s] opens a match of [<[^>]+>]. *)
Fixpoint has_tag (s : string) : bool :=
  match s with
  | EmptyString => false
  | String c r =>
      (Ascii.eqb c "<" && bool_decide (is_Some (JsString.tag_body r))) || has_tag r
  end.

(** Every white-space character of [s] is a space, and no two are
    adjacent ([after_space]: the previous character was a space). *)
Fixpoint single_spaced_from (after_space : bool) (s : string) : bool :=
  match s with
  | EmptyString => true
  | String c r =>
      if JsString.is_space c
      then Ascii.eqb c " " && negb after_space && single_spaced_from true r
      else single_spaced_from false r
  end.

Definition single_spaced (s : string) : bool := single_spaced_from false s.

End TunnelNotions.

Module HandlerNotions.

Import Http2Handler.

(** The seven names of the hop-by-hop set. *)
Definition hop_by_hop_names : list string :=
  ["connection"; "keep-alive"; "proxy-authenticate"; "proxy-authorization";
   "te"; "trailers"; "transfer-encoding"].

(** The name [key] is, up to case, one of the seven. *)
Definition is_hop_by_hop (key : string) : bool :=
  bool_decide (JsString.toLowerCase key ∈ hop_by_hop_names).

(** A response on which nothing can be written any more. *)
Definition finished (r : Response) : bool := ended r || closed r.

Definition BAD_GATEWAY : string := "Bad Gateway".

Definition connect_failure (message : string) : string :=
  "Failed to connect to local server: " +:+ message.


(** The chunks of [es] that reach the local socket: those that
    arrive while the socket, whose state is followed along the
    events, is [OPEN]. *)
Fixpoint accepted (s : ReadyState) (es : list BridgeEvent) : list string :=
  match es with
  | [] => []
  | LocalState s' :: r => accepted s' r
  | LocalClosed :: r => accepted CLOSED r
  | VirtualData chunk :: r =>
      if bool_decide (s = OPEN) then chunk :: accepted s r else accepted s r
  | VirtualEnd :: r => accepted (if bool_decide (s = OPEN) then CLOSING else s) r
  | _ :: r => accepted s r
  end.

(** The events of an established bridge: the local socket opens or
    fails to open only before. *)
Definition bridge_event (e : BridgeEvent) : Prop :=
  match e with
  | LocalOpened | LocalFailed _ => False
  | _ => True
  end.

End HandlerNotions.

(* ===================================================================== *)
(** ** The query string of the allocation request *)
(* ===================================================================== *)

Module Query.

Import Tunnel.

Definition hex_digit (n : nat) : ascii :=
  if Nat.ltb n 10 then ascii_of_nat (48 + n) else ascii_of_nat (55 + n).

(** [%XX] for the byte [b]. *)
Definition percent (b : nat) : string :=
  String "%" (String (hex_digit (b / 16)) (String (hex_digit (b mod 16)) EmptyString)).

(** The characters that the serializer of [URLSearchParams] leaves as
    they are: the ASCII letters and digits and the four marks. *)
Definition is_unreserved (c : ascii) : bool :=
  let n := nat_of_ascii c in
  (Nat.leb 48 n && Nat.leb n 57) || (Nat.leb 65 n && Nat.leb n 90)
  || (Nat.leb 97 n && Nat.leb n 122)
  || Ascii.eqb c "*" || Ascii.eqb c "-" || Ascii.eqb c "." || Ascii.eqb c "_".

(** The UTF-8 bytes of a code unit below 256. *)
Definition utf8 (c : ascii) : list nat :=
  let n := nat_of_ascii c in
  if Nat.ltb n 128 then [n] else [192 + n / 64; 128 + n mod 64].

Definition encode_char (c : ascii) : string :=
  if Ascii.eqb c " " then "+"
  else if is_unreserved c then String c EmptyString
  else String.concat "" (map percent (utf8 c)).

(** The serialization of a name or a value by [URLSearchParams]. *)
Fixpoint form_encode (s : string) : string :=
  match s with
  | EmptyString => EmptyString
  | String c r => encode_char c +:+ form_encode r
  end.

(** [queryParams.toString()] *)
Definition queryParams (o : Opts) : string :=
  if JsString.truthy (subdomain o)
  then form_encode "subdomain" +:+ "=" +:+ form_encode (JsString.template (subdomain o))
  else "".

Definition fullUrl (o : Opts) : string := allocation_url o +:+ "?" +:+ queryParams o.

End Query.

(* ===================================================================== *)
(** ** The command line: [start-local-tunnel] *)
(* ===================================================================== *)

Module Cli.

Definition nl : string := String (ascii_of_nat 10) EmptyString.

(** The options as the argument parser delivers them. *)
Record CliOptions : Type := mkCliOptions {
  port : N;
  localHost : string;
  serverHost : string;
  serverPort : N;
  local : bool;
  subdomain : option string;
  apiToken : option string;
  localHttps : bool;
  printRequests : bool
}.

Definition effective_serverHost (c : CliOptions) : string :=
  if local c then "localhost" else serverHost c.

Definition effective_serverPort (c : CliOptions) : N :=
  if local c then 9000%N else serverPort c.

(** The argument of [createTunnel]. *)
Definition tunnel_options (c : CliOptions) : Tunnel.TunnelOptions :=
  Tunnel.mkTunnelOptions (port c) (Some (localHost c))
    (Some (effective_serverHost c)) (Some (effective_serverPort c))
    (Some (if local c then 8081%N else effective_serverPort c))
    (subdomain c) (apiToken c) (Some (localHttps c)) (Some (printRequests c)).

(** The advice printed after a failure, chosen by the text of the
    error. *)
Inductive Hint : Type :=
| LocalServerHint
| TunnelServerHint
| NetworkHint
| ServiceDownHint.

Definition hint (msg : string) : option Hint :=
  if JsString.includes msg "Local server" then Some LocalServerHint
  else if JsString.includes msg "connection refused" || JsString.includes msg "not running"
  then Some TunnelServerHint
  else if JsString.includes msg "could not be resolved"
          || JsString.includes msg "check your network"
  then Some NetworkHint
  else if JsString.includes msg "temporarily unavailable"
          || JsString.includes msg "timed out" || JsString.includes msg "not responding"
  then Some ServiceDownHint
  else None.

Definition hint_lines (c : CliOptions) (h : option Hint) : list string :=
  match h with
  | Some LocalServerHint =>
      [nl +:+ "Make sure your local server is running on port " +:+ JsString.of_N (port c)]
  | Some TunnelServerHint =>
      [nl +:+ "Make sure the tunnel server is running:"; "  npm run start-server"]
  | Some NetworkHint =>
      [nl +:+ "Check your network connection and verify the server host is correct."]
  | Some ServiceDownHint =>
      [nl +:+ "The tunnel service appears to be down. Try again in a few minutes."]
  | None => []
  end.

(** What the process has written with [console.log] and
    [console.error], line by line, and its exit code once it has
    exited. *)
Record Process : Type := mkProcess {
  out_lines : list string;
  err_lines : list string;
  exit_code : option nat
}.

Definition starting_lines (c : CliOptions) : list string :=
  ["Starting local tunnel...";
   "  Local server: " +:+ localHost c +:+ ":" +:+ JsString.of_N (port c);
   "  Tunnel server: " +:+ effective_serverHost c +:+ ":"
     +:+ JsString.of_N (effective_serverPort c)].

(** [`${tunnel.tunnelId}`] *)
Definition tunnelId_text (t : Tunnel.TunnelObj) : string :=
  match Tunnel.tunnelId t with
  | Some i => Json.to_string_opt i
  | None => "null"
  end.

Definition open_lines (t : Tunnel.TunnelObj) : list string :=
  [nl +:+ "Tunnel is open!";
   "  Public URL: " +:+ match Tunnel.public_url t with Some u => u | None => "null" end;
   "  Tunnel ID: " +:+ tunnelId_text t;
   nl +:+ "Press Ctrl+C to close the tunnel" +:+ nl].

(** The action of the command up to the point where it installs its
    listeners: the tunnel is created and the outcome reported.  The
    colouring of the texts is left out. *)
Definition action (c : CliOptions) (env : Tunnel.Env) : Process * Tunnel.World :=
  match Tunnel.createTunnel (tunnel_options c) env with
  | (inr _, w) =>
      (mkProcess (starting_lines c ++ open_lines (Tunnel.this w)) [] None, w)
  | (inl msg, w) =>
      (mkProcess (starting_lines c ++ hint_lines c (hint msg))
         [nl +:+ "Failed to start tunnel: " +:+ msg] (Some 1), w)
  end.

(** The text that arrives on the standard output: every line is
    followed by a line feed. *)
Definition stdout_text (p : Process) : string :=
  String.concat "" (map (fun line => line +:+ nl) (out_lines p)).

End Cli.

(* ===================================================================== *)
(** ** The CI wrapper that spawns the command *)
(* ===================================================================== *)

Module Action.

Definition is_digit (c : ascii) : bool :=
  let n := nat_of_ascii c in Nat.leb 48 n && Nat.leb n 57.

Fixpoint skip_space (s : string) : string :=
  match s with
  | String c r => if JsString.is_space c then skip_space r else s
  | EmptyString => EmptyString
  end.

(** The leading decimal digits of [s] as a number, with their count. *)
Fixpoint leading_digits (acc : N) (count : nat) (s : string) : N * nat :=
  match s with
  | String c r =>
      if is_digit c
      then leading_digits (acc * 10 + N.of_nat (nat_of_ascii c - 48))%N (S count) r
      else (acc, count)
  | EmptyString => (acc, count)
  end.

(** [parseInt(s, 10)]; [None] is [NaN]. *)
Definition parseInt (s : string) : option Z :=
  let t := skip_space s in
  let '(negative, digits) :=
    match t with
    | String "-" r => (true, r)
    | String "+" r => (false, r)
    | _ => (false, t)
    end in
  match leading_digits 0 0 digits with
  | (_, O) => None
  | (n, _) => Some (if negative then (- Z.of_N n)%Z else Z.of_N n)
  end.

(** The inputs of the action, as [core.getInput] returns them: trimmed,
    and the empty string for an input that is not set. *)
Record Inputs : Type := mkInputs {
  in_port : string;
  in_serverHost : string;
  in_serverPort : string;
  in_apiToken : string;
  in_subdomain : string;
  in_localHost : string;
  in_local : string
}.

(** [x || d] on strings. *)
Definition or_default (x d : string) : string :=
  if String.eqb x "" then d else x.

(** The test on the port, and the error it throws. *)
Definition invalid_port (port : string) : bool :=
  match parseInt port with
  | None => true
  | Some n => Z.ltb n 1 || Z.ltb 65535 n
  end.

Definition invalid_port_message (port : string) : string :=
  "Invalid port: " +:+ port +:+ ". Must be a number between 1 and 65535.".

(** The arguments handed to the command: [inl] is the error thrown
    before anything is spawned. *)
Definition build_args (i : Inputs) : string + list string :=
  if invalid_port (in_port i) then inl (invalid_port_message (in_port i))
  else
    inr (["start-local-tunnel";
          "--port"; in_port i;
          "--local-host"; or_default (in_localHost i) "localhost";
          "--server-host"; or_default (in_serverHost i) "abbreviated.ai";
          "--server-port"; or_default (in_serverPort i) "443"]
         ++ (if negb (String.eqb (in_apiToken i) "")
             then ["--api-token"; in_apiToken i] else [])
         ++ (if negb (String.eqb (in_subdomain i) "")
             then ["--subdomain"; in_subdomain i] else [])
         ++ (if String.eqb (in_local i) "true" then ["--local"] else [])).

(** *** [waitForTunnelReady] *)

Fixpoint take_nonspace (s : string) : string :=
  match s with
  | String c r => if JsString.is_space c then EmptyString else String c (take_nonspace r)
  | EmptyString => EmptyString
  end.

(** A match of [lit\s*(\S+)] at the head of [s]: the group. *)
Definition capture_here (lit s : string) : option string :=
  if String.prefix lit s then
    let token :=
      take_nonspace (skip_space (String.substring (String.length lit)
                                   (String.length s - String.length lit) s)) in
    if String.eqb token "" then None else Some token
  else None.

(** [s.match(/lit\s*(\S+)/)]: the group of the leftmost match. *)
Fixpoint capture (lit s : string) : option string :=
  match capture_here lit s with
  | Some token => Some token
  | None =>
      match s with
      | String _ r => capture lit r
      | EmptyString => None
      end
  end.

(** The state of the promise and of the child: the text collected,
    the flag [resolved], how the promise was settled, whether the timer
    runs and whether [child.kill()] was called. *)
Record Waiting : Type := mkWaiting {
  stdout : string;
  stderr : string;
  resolved : bool;
  settled : option (string + (string * string));
  timer : bool;
  killed : bool
}.

Definition start_waiting : Waiting := mkWaiting "" "" false None true false.

Inductive ChildEvent : Type :=
| Timeout
| StdoutData (chunk : string)
| StderrData (chunk : string)
| SpawnError (message : string)
| Exit (code : option nat) (signal : option string).

Definition nl : string := String (ascii_of_nat 10) EmptyString.

(** The first settlement of a promise is the one that counts. *)
Definition settle (r : string + (string * string)) (w : Waiting) : option (string + (string * string)) :=
  match settled w with
  | Some s => Some s
  | None => Some r
  end.

Definition on_timeout (w : Waiting) : Waiting :=
  if negb (resolved w) then
    mkWaiting (stdout w) (stderr w) true
      (settle (inl ("Tunnel failed to start within 30 seconds." +:+ nl
                    +:+ "Stdout: " +:+ stdout w +:+ nl +:+ "Stderr: " +:+ stderr w)) w)
      false true
  else mkWaiting (stdout w) (stderr w) (resolved w) (settled w) false (killed w).

Definition on_stdout (chunk : string) (w : Waiting) : Waiting :=
  let text := stdout w +:+ chunk in
  match capture "Public URL:" text, capture "Tunnel ID:" text with
  | Some tunnelUrl, Some tunnelId =>
      if negb (resolved w) then
        mkWaiting text (stderr w) true (settle (inr (tunnelUrl, tunnelId)) w) false (killed w)
      else mkWaiting text (stderr w) (resolved w) (settled w) (timer w) (killed w)
  | _, _ => mkWaiting text (stderr w) (resolved w) (settled w) (timer w) (killed w)
  end.

Definition on_stderr (chunk : string) (w : Waiting) : Waiting :=
  mkWaiting (stdout w) (stderr w +:+ chunk) (resolved w) (settled w) (timer w) (killed w).

Definition on_spawn_error (message : string) (w : Waiting) : Waiting :=
  if negb (resolved w) then
    mkWaiting (stdout w) (stderr w) true
      (settle (inl ("Failed to spawn tunnel process: " +:+ message)) w) false (killed w)
  else w.

Definition code_text (code : option nat) : string :=
  match code with
  | Some n => JsString.of_nat n
  | None => "null"
  end.

Definition signal_text (signal : option string) : string :=
  match signal with
  | Some s => s
  | None => "null"
  end.

Definition on_exit (code : option nat) (signal : option string) (w : Waiting) : Waiting :=
  if negb (resolved w) then
    mkWaiting (stdout w) (stderr w) true
      (settle (inl ("Tunnel process exited unexpectedly with code " +:+ code_text code
                    +:+ ", signal " +:+ signal_text signal +:+ "." +:+ nl
                    +:+ "Stdout: " +:+ stdout w +:+ nl +:+ "Stderr: " +:+ stderr w)) w)
      false (killed w)
  else w.

(** One event of the child or of the timer; a timer that was cleared
    does not fire. *)
Definition wait_step (e : ChildEvent) (w : Waiting) : Waiting :=
  match e with
  | Timeout => if timer w then on_timeout w else w
  | StdoutData chunk => on_stdout chunk w
  | StderrData chunk => on_stderr chunk w
  | SpawnError message => on_spawn_error message w
  | Exit code signal => on_exit code signal w
  end.

Definition wait_run (es : list ChildEvent) (w : Waiting) : Waiting :=
  foldl (fun acc e => wait_step e acc) w es.

End Action.

(* ===================================================================== *)
(** ** Further notions used in the statements *)
(* ===================================================================== *)

Module TextNotions.

(** Every character of [s] satisfies [p]. *)
Fixpoint all_chars (p : ascii -> bool) (s : string) : bool :=
  match s with
  | EmptyString => true
  | String c r => p c && all_chars p r
  end.

(** The number that the digits [d], read from the left, add to [acc]. *)
Fixpoint digits_value (acc : N) (d : Decimal.uint) : N :=
  match d with
  | Decimal.Nil => acc
  | Decimal.D0 l => digits_value (acc * 10 + 0) l
  | Decimal.D1 l => digits_value (acc * 10 + 1) l
  | Decimal.D2 l => digits_value (acc * 10 + 2) l
  | Decimal.D3 l => digits_value (acc * 10 + 3) l
  | Decimal.D4 l => digits_value (acc * 10 + 4) l
  | Decimal.D5 l => digits_value (acc * 10 + 5) l
  | Decimal.D6 l => digits_value (acc * 10 + 6) l
  | Decimal.D7 l => digits_value (acc * 10 + 7) l
  | Decimal.D8 l => digits_value (acc * 10 + 8) l
  | Decimal.D9 l => digits_value (acc * 10 + 9) l
  end%N.

(** Reading while [p] holds stops at the head of [s]. *)
Definition stops (p : ascii -> bool) (s : string) : bool :=
  match s with
  | EmptyString => true
  | String c _ => negb (p c)
  end.



(** The characters of a form-encoded text. *)
Definition safe_char (c : ascii) : bool :=
  Query.is_unreserved c || Ascii.eqb c "+" || Ascii.eqb c "%".

(** A character that does not break the line: no white space other
    than the space. *)
Definition line_char (c : ascii) : bool := negb (JsString.is_space c) || Ascii.eqb c " ".

Definition no_leading_space (s : string) : bool :=
  match s with
  | EmptyString => true
  | String c _ => negb (JsString.is_space c)
  end.

Definition nonspace (c : ascii) : bool := negb (JsString.is_space c).

(** A text that [\S+] matches as a whole. *)
Definition is_token (s : string) : bool :=
  negb (String.eqb s "") && all_chars nonspace s.

(** No match of [lit] begins inside a run of characters other than
    white space that is followed by [d]: the run cannot hold the
    white space of [lit], and [d] is not what [lit] expects next. *)
Fixpoint blocked (d : ascii) (lit : string) : bool :=
  match lit with
  | EmptyString => false
  | String a r =>
      JsString.is_space a ||
      (match r with
       | String a' _ => negb (Ascii.eqb a' d)
       | EmptyString => false
       end && blocked d r)
  end.

End TextNotions.

Module SessionNotions.

Import Tunnel TunnelNotions.

(** The world after a successful [open]. *)
Definition opened_world (env : Env) (w : World) (ti : TunnelInfo) : World :=
  let n := numConnections env in
  let news := seq (length (sockets w)) n in
  mkWorld
    (mkTunnel (opts (this w)) (closed (this w)) (Some (length (handlers w)))
       (wsConnections (this w) ++ news) (Some ti) (Some (url ti)) (Some (id ti)))
    (sockets w ++ map (opened_socket (opts (this w)) ti) (seq 0 n))
    (handlers w ++ [started_handler (opts (this w)) news])
    (emitted w ++ [EvOpen (url ti)]) (console w).

(** Two worlds that differ at most in the state of their sockets. *)
Definition same_but_sockets (w w' : World) : Prop :=
  this w' = this w /\ handlers w' = handlers w /\ emitted w' = emitted w /\
  console w' = console w /\ length (sockets w') = length (sockets w).

(** The local server refuses the connection. *)
Definition env_refused : Env :=
  mkEnv (ProbeError (Some "ECONNREFUSED") "connect ECONNREFUSED 127.0.0.1:3000")
    (AllocResponse (Some 200) Samples.tunnel_body) 4 (fun _ => HandshakeOpen).

(** The command with its defaults, port 3000 and a token. *)
Definition cli_sample : Cli.CliOptions :=
  Cli.mkCliOptions 3000 "localhost" "abbreviated.ai" 443 false None (Some "secret") false false.

(** The inputs of the wrapper: a port followed by a protocol name. *)
Definition inputs_sample : Action.Inputs :=
  Action.mkInputs "8080/tcp" "" "" "" "" "" "".

(** What holds of the promise and the child at every moment. *)
Definition consistent (w : Action.Waiting) : Prop :=
  (Action.resolved w = true <-> is_Some (Action.settled w)) /\
  (Action.timer w = true -> Action.resolved w = false) /\
  (Action.killed w = true ->
   exists text,
     Action.settled w = Some (inl ("Tunnel failed to start within 30 seconds." +:+ text))).

End SessionNotions.

Module BridgeNotions.

Import Http2Handler.

(** The events of the virtual request stream. *)
Definition virtual_event (e : BridgeEvent) : bool :=
  match e with
  | VirtualData _ | VirtualEnd => true
  | _ => false
  end.

Definition is_local_closed (e : BridgeEvent) : bool :=
  match e with
  | LocalClosed => true
  | _ => false
  end.

(** The messages of the local socket that arrive before it closes. *)
Fixpoint relayed (es : list BridgeEvent) : list string :=
  match es with
  | [] => []
  | LocalMessage data :: r => data :: relayed r
  | LocalClosed :: _ => []
  | _ :: r => relayed r
  end.

Definition ws_failure (message : string) : string :=
  "Failed to connect to local WebSocket: " +:+ message.

End BridgeNotions.

(* ===================================================================== *)
(** ** Properties of [Tunnel] *)
(* ===================================================================== *)

Module TunnelProofs.

Import Tunnel TunnelNotions.

(** *** Strings *)

Lemma slice0_length n s : String.length (JsString.slice0 n s) <= n.
Proof.
  revert s. induction n as [|n IH]; intros s; destruct s; simpl; try lia.
  specialize (IH s). lia.
Qed.

Lemma collapse_single_spaced s : forall b,
  single_spaced_from b (JsString.collapse_from b s) = true.
Proof.
  induction s as [|c r IH]; intros b; simpl; [reflexivity|].
  destruct (JsString.is_space c) eqn:E.
  - destruct b.
    + apply IH.
    + simpl. rewrite (IH true). reflexivity.
  - simpl. rewrite E. apply IH.
Qed.

Lemma after_gt_length s r :
  JsString.after_gt s = Some r -> String.length r < String.length s.
Proof.
  revert r. induction s as [|c s IH]; intros r H; simpl in *; [discriminate|].
  destruct (Ascii.eqb c ">").
  - inversion H; subst. lia.
  - apply IH in H. lia.
Qed.

Lemma tag_body_length s r :
  JsString.tag_body s = Some r -> String.length r < String.length s.
Proof.
  destruct s as [|c s]; simpl; [discriminate|].
  destruct (Ascii.eqb c ">"); [discriminate|].
  intros H. apply after_gt_length in H. lia.
Qed.

(** A text without [>] has no tag to lose. *)
Lemma strip_no_gt fuel : forall s,
  JsString.after_gt s = None -> JsString.strip_tags_from fuel s = s.
Proof.
  induction fuel as [|f IH]; intros s H; [reflexivity|].
  destruct s as [|c r]; [reflexivity|]. simpl in H |- *.
  destruct (Ascii.eqb c ">") eqn:Egt; [discriminate|].
  assert (JsString.tag_body r = None) as Hbody.
  { destruct r as [|d r2]; [reflexivity|]. simpl in H |- *.
    destruct (Ascii.eqb d ">"); [reflexivity|exact H]. }
  rewrite Hbody, (IH r H). destruct (Ascii.eqb c "<"); reflexivity.
Qed.

Lemma strip_tag_body fuel r :
  JsString.tag_body r = None ->
  JsString.tag_body (JsString.strip_tags_from fuel r) = None.
Proof.
  intros H. destruct r as [|d r2]; [destruct fuel; reflexivity|].
  simpl in H. destruct (Ascii.eqb d ">") eqn:Ed.
  - destruct fuel; simpl; [rewrite Ed; reflexivity|].
    assert (Ascii.eqb d "<" = false) as ->.
    { apply Ascii.eqb_eq in Ed. subst d. reflexivity. }
    simpl. rewrite Ed. reflexivity.
  - rewrite strip_no_gt; [simpl; rewrite Ed; exact H|].
    simpl. rewrite Ed. exact H.
Qed.

Lemma strip_has_no_tag fuel : forall s,
  String.length s <= fuel -> has_tag (JsString.strip_tags_from fuel s) = false.
Proof.
  induction fuel as [|f IH]; intros s Hlen.
  - destruct s; [reflexivity|simpl in Hlen; lia].
  - destruct s as [|c r]; [reflexivity|]. simpl in Hlen.
    cbn [JsString.strip_tags_from].
    destruct (Ascii.eqb c "<") eqn:Ec.
    + destruct (JsString.tag_body r) as [r'|] eqn:Hbody.
      * apply IH. apply tag_body_length in Hbody. lia.
      * cbn [has_tag]. rewrite Ec, (strip_tag_body f r Hbody), IH by lia.
        reflexivity.
    + cbn [has_tag]. rewrite Ec, IH by lia. reflexivity.
Qed.

(** No match of the tag pattern is left after the replacement. *)
Lemma strip_tags_no_tag s : has_tag (JsString.strip_tags s) = false.
Proof. apply strip_has_no_tag. reflexivity. Qed.

(** Fuel beyond the length of the text changes nothing: the scan is
    over when the text is. *)
Lemma strip_fuel_enough f1 : forall f2 s,
  String.length s <= f1 -> String.length s <= f2 ->
  JsString.strip_tags_from f1 s = JsString.strip_tags_from f2 s.
Proof.
  induction f1 as [|f1 IH]; intros f2 s H1 H2.
  - destruct s; [destruct f2; reflexivity|simpl in H1; lia].
  - destruct s as [|c r]; [destruct f2; reflexivity|]. simpl in H1, H2.
    destruct f2 as [|f2]; [lia|]. cbn [JsString.strip_tags_from].
    destruct (Ascii.eqb c "<").
    + destruct (JsString.tag_body r) as [r'|] eqn:Hbody.
      * pose proof (tag_body_length _ _ Hbody). apply IH; lia.
      * f_equal. apply IH; lia.
    + f_equal. apply IH; lia.
Qed.


(** *** The allocation response *)

(** C3, as the code has it: a response whose status is 200 is parsed
    into a TunnelInfo (or rejected when the body does not parse); every
    other status, the other 2xx included, is rejected with a message
    that depends on the status: 502, 503 and 504 give "temporarily
    unavailable" with the status code, 401 and 403 the authentication
    failure, 429 the rate limit, and any other status the generic
    message with the body stripped of tags, collapsed, trimmed and cut
    at 120 characters. *)
Theorem allocation_status o statusCode data :
  if bool_decide (statusCode = Some 200) then
    getTunnelInfo o (AllocResponse statusCode data) =
    match parse_response o data with
    | Some info => inr info
    | None => inl ("Failed to parse tunnel response: " +:+ data)
    end
  else
    let status := default 0 statusCode in
    exists r,
      getTunnelInfo o (AllocResponse statusCode data) = inl (failure_message r) /\
      match classify status with
      | ServiceUnavailable =>
          r = "Tunnel server is temporarily unavailable (HTTP "
              +:+ JsString.of_nat status +:+ ")"
          /\ JsString.includes r "temporarily unavailable" = true
          /\ JsString.includes r (JsString.of_nat status) = true
      | AuthFailed =>
          r = "Authentication failed (HTTP " +:+ JsString.of_nat status
              +:+ ") — check your API token"
      | RateLimited =>
          r = "Rate limited by tunnel server (HTTP 429) — try again later"
      | GenericHttp =>
          r = "HTTP " +:+ JsString.of_nat status +:+
              (if String.eqb (plain_body data) "" then ""
               else ": " +:+ JsString.slice0 120 (plain_body data))
          /\ String.length (JsString.slice0 120 (plain_body data)) <= 120
          /\ has_tag (JsString.strip_tags data) = false
          /\ single_spaced (JsString.collapse_spaces (JsString.strip_tags data)) = true
      end.
Proof.
  case_bool_decide as Hsc.
  { subst statusCode. reflexivity. }
  cbv zeta. exists (reason (default 0 statusCode) data).
  split.
  - unfold getTunnelInfo. rewrite bool_decide_eq_false_2 by exact Hsc. reflexivity.
  - unfold classify, reason. set (status := default 0 statusCode). clearbody status.
    destruct (Nat.eqb status 503) eqn:E503.
    { apply Nat.eqb_eq in E503. subst. vm_compute. done. }
    destruct (Nat.eqb status 502) eqn:E502.
    { apply Nat.eqb_eq in E502. subst. vm_compute. done. }
    destruct (Nat.eqb status 504) eqn:E504.
    { apply Nat.eqb_eq in E504. subst. vm_compute. done. }
    apply Nat.eqb_neq in E503, E502, E504.
    rewrite bool_decide_eq_false_2 by (rewrite !elem_of_cons, elem_of_nil; lia).
    cbn [orb].
    destruct (Nat.eqb status 401) eqn:E401.
    { apply Nat.eqb_eq in E401. subst. reflexivity. }
    destruct (Nat.eqb status 403) eqn:E403.
    { apply Nat.eqb_eq in E403. subst. reflexivity. }
    apply Nat.eqb_neq in E401, E403.
    rewrite bool_decide_eq_false_2 by (rewrite !elem_of_cons, elem_of_nil; lia).
    cbn [orb].
    destruct (Nat.eqb status 429) eqn:E429.
    { apply Nat.eqb_eq in E429. subst. reflexivity. }
    apply Nat.eqb_neq in E429.
    rewrite bool_decide_eq_false_2 by done.
    split_and!.
    + fold (plain_body data). destruct (String.eqb (plain_body data) ""); reflexivity.
    + apply slice0_length.
    + apply strip_tags_no_tag.
    + apply collapse_single_spaced.
Qed.

(** C3 fails as stated: a response with status 201 and a body that the
    same call accepts under status 200 is rejected. *)
Lemma status_201_rejected :
  getTunnelInfo (constructor_opts Samples.options)
    (AllocResponse (Some 201) Samples.example_body)
  = inl (failure_message ("HTTP 201: " +:+ Samples.example_body))
  /\ getTunnelInfo (constructor_opts Samples.options)
       (AllocResponse (Some 200) Samples.example_body)
     = inr (mkTunnelInfo None "https://x.example/" "abbreviated.ai" 443).
Proof. split; vm_compute; reflexivity. Qed.

Example status_503 :
  getTunnelInfo (constructor_opts Samples.options) (AllocResponse (Some 503) "<html></html>")
  = inl "Failed to create tunnel: Tunnel server is temporarily unavailable (HTTP 503)".
Proof. reflexivity. Qed.

Example status_404 :
  getTunnelInfo (constructor_opts Samples.options)
    (AllocResponse (Some 404) "<html><body> <h1>Not   Found</h1> </body></html>")
  = inl "Failed to create tunnel: HTTP 404: Not Found".
Proof. vm_compute. reflexivity. Qed.

(** *** The public URL *)





Example port_80_stripped :
  url <$> parse_response (constructor_opts Samples.options)
            (Samples.json_text "{'tunnel_id':'abc','url':'https://abc.example:80/x?y'}")
  = Some "https://abc.example/x?y".
Proof. vm_compute. reflexivity. Qed.

(** *** The transport pool *)

Lemma alter_last {A} (f : A -> A) (l : list A) (x : A) :
  alter f (length l) (l ++ [x]) = l ++ [f x].
Proof.
  replace (length l) with (length l + 0) by lia.
  rewrite alter_app_r. reflexivity.
Qed.

Lemma pool_world_0 w ti i : pool_world w ti i 0 [] = w.
Proof.
  destruct w as [[] ? ? ? ?]. unfold pool_world; simpl. rewrite !app_nil_r. reflexivity.
Qed.

Lemma pool_world_step w ti i n extra :
  pool_world (pool_world w ti i 1 []) ti (S i) n extra = pool_world w ti i (S n) extra.
Proof.
  destruct w as [[] ? ? ? ?]. unfold pool_world; simpl.
  rewrite !length_app; simpl. rewrite Nat.add_1_r.
  rewrite <- !app_assoc. simpl. reflexivity.
Qed.

(** One round of the loop whose handshake succeeds. *)
Lemma connect_round env ti i streams w todo :
  handshake env i = HandshakeOpen ->
  connect_loop env ti (S todo) i streams w =
  connect_loop env ti todo (S i) (streams ++ [length (sockets w)]) (pool_world w ti i 1 []).
Proof.
  intros Hi. destruct w as [[] ? ? ? ?].
  cbn [connect_loop].
  unfold bind, gets, new_WebSocket, bind, gets, modify, ret, await_handshake.
  rewrite Hi. unfold bind, modify, with_sockets, with_this, pool_world. simpl.
  rewrite !alter_last. simpl. reflexivity.
Qed.

Lemma connect_loop_ok env ti todo : forall i streams w,
  (forall j, j < todo -> handshake env (i + j) = HandshakeOpen) ->
  connect_loop env ti todo i streams w =
  (inr (streams ++ seq (length (sockets w)) todo), pool_world w ti i todo []).
Proof.
  induction todo as [|todo IH]; intros i streams w Hok.
  - simpl. rewrite app_nil_r, pool_world_0. reflexivity.
  - rewrite connect_round by (rewrite <- (Nat.add_0_r i); apply Hok; lia).
    rewrite IH.
    + rewrite pool_world_step. f_equal. rewrite <- app_assoc. simpl.
      destruct w as [[] ? ? ? ?]; simpl. rewrite length_app; simpl.
      rewrite Nat.add_1_r. reflexivity.
    + intros j Hj. replace (S i + j) with (i + S j) by lia. apply Hok. lia.
Qed.

Lemma connect_loop_fail env ti message k : forall todo i streams w,
  k < todo ->
  (forall j, j < k -> handshake env (i + j) = HandshakeOpen) ->
  handshake env (i + k) = HandshakeError message ->
  connect_loop env ti todo i streams w =
  (inl (handshake_failure ti message),
   pool_world w ti i k [failed_socket (opts (this w)) ti]).
Proof.
  induction k as [|k IH]; intros todo i streams w Hlt Hok Hfail.
  - destruct todo as [|todo]; [lia|]. rewrite Nat.add_0_r in Hfail.
    destruct w as [[] ? ? ? ?].
    cbn [connect_loop].
    unfold bind, gets, new_WebSocket, bind, gets, modify, ret, await_handshake.
    rewrite Hfail. unfold bind, modify, throw, with_sockets, pool_world. simpl.
    rewrite !alter_last. simpl. rewrite app_nil_r. reflexivity.
  - destruct todo as [|todo]; [lia|].
    rewrite connect_round by (rewrite <- (Nat.add_0_r i); apply Hok; lia).
    rewrite (IH todo (S i)).
    + rewrite pool_world_step. destruct w as [[] ? ? ? ?]; reflexivity.
    + lia.
    + intros j Hj. replace (S i + j) with (i + S j) by lia. apply Hok. lia.
    + replace (S i + k) with (i + S k) by lia. exact Hfail.
Qed.

Lemma connectToServer_ok env w ti :
  tunnelInfo (this w) = Some ti ->
  (forall i, i < numConnections env -> handshake env i = HandshakeOpen) ->
  connectToServer env w =
  (inr tt,
   let n := numConnections env in
   let news := seq (length (sockets w)) n in
   mkWorld
     (mkTunnel (opts (this w)) (closed (this w)) (Some (length (handlers w)))
        (wsConnections (this w) ++ news) (tunnelInfo (this w)) (public_url (this w))
        (tunnelId (this w)))
     (sockets w ++ map (opened_socket (opts (this w)) ti) (seq 0 n))
     (handlers w ++ [started_handler (opts (this w)) news])
     (emitted w) (console w)).
Proof.
  intros Hti Hok. unfold connectToServer.
  unfold bind at 1. unfold gets at 1. rewrite Hti.
  unfold bind at 1. rewrite connect_loop_ok by (intros j Hj; apply Hok, Hj).
  destruct w as [[o c h conns ti' u tid] l hs ev lg]. cbn in Hti. subst ti'.
  unfold pool_world, bind, gets, modify, with_handlers, with_this. cbn.
  rewrite alter_last, app_nil_r. reflexivity.
Qed.

Lemma connectToServer_fail env w ti k message :
  tunnelInfo (this w) = Some ti ->
  k < numConnections env ->
  (forall j, j < k -> handshake env j = HandshakeOpen) ->
  handshake env k = HandshakeError message ->
  connectToServer env w =
  (inl (handshake_failure ti message),
   pool_world w ti 0 k [failed_socket (opts (this w)) ti]).
Proof.
  intros Hti Hk Hok Hfail. unfold connectToServer.
  unfold bind at 1. unfold gets at 1. rewrite Hti.
  unfold bind at 1.
  rewrite (connect_loop_fail env ti message k); [reflexivity|done|done|done].
Qed.

(** C6: when every handshake succeeds, [connectToServer] creates
    exactly min(p, 16) channels, where p is the number of CPUs: that
    many sockets are added to the store, all open, and that many
    entries to the pool. *)
Theorem pool_size env w ti :
  tunnelInfo (this w) = Some ti ->
  (forall i, i < Nat.min (cpus env) 16 -> handshake env i = HandshakeOpen) ->
  let n := Nat.min (cpus env) 16 in
  let w' := snd (connectToServer env w) in
  fst (connectToServer env w) = inr tt /\
  sockets w' = sockets w ++ map (opened_socket (opts (this w)) ti) (seq 0 n) /\
  length (sockets w') = length (sockets w) + n /\
  wsConnections (this w') = wsConnections (this w) ++ seq (length (sockets w)) n /\
  length (wsConnections (this w')) = length (wsConnections (this w)) + n.
Proof.
  intros Hti Hok. cbv zeta. rewrite (connectToServer_ok env w ti Hti Hok). cbn.
  unfold numConnections.
  split_and!; try reflexivity.
  - rewrite length_app, length_map, length_seq. reflexivity.
  - rewrite length_app, length_seq. reflexivity.
Qed.

Lemma pool_size_witness :
  tunnelInfo (this Samples.allocated) = Some Samples.example_info /\
  length (wsConnections
            (this (snd (connectToServer (Samples.env_ok 32) Samples.allocated)))) = 16.
Proof.
  split; [reflexivity|].
  pose proof (pool_size (Samples.env_ok 32) Samples.allocated Samples.example_info
                eq_refl (fun i _ => eq_refl)) as H.
  destruct H as (_ & _ & _ & _ & H). exact H.
Defined.

Example pool_of_1_4_32 :
  length (wsConnections (this (Samples.established 1))) = 1 /\
  length (wsConnections (this (Samples.established 4))) = 4 /\
  length (wsConnections (this (Samples.established 32))) = 16.
Proof. vm_compute. done. Qed.

Lemma open_fail_result env w ti k message :
  checkLocalServer (opts (this w)) (probe env) = inr tt ->
  getTunnelInfo (opts (this w)) (allocation env) = inr ti ->
  k < Nat.min (cpus env) 16 ->
  (forall j, j < k -> handshake env j = HandshakeOpen) ->
  handshake env k = HandshakeError message ->
  open env w =
  (inl (handshake_failure ti message),
   add_event (EvError (handshake_failure ti message))
     (pool_world (with_this (set_tunnelInfo ti) w) ti 0 k
        [failed_socket (opts (this w)) ti])).
Proof.
  intros Hprobe Halloc Hk Hok Hfail.
  unfold open, try_catch.
  unfold bind at 1. unfold gets at 1. unfold bind at 1. unfold lift at 1. rewrite Hprobe.
  unfold bind at 1. unfold lift at 1. rewrite Halloc.
  unfold bind at 1. unfold modify at 1. unfold bind at 1.
  rewrite (connectToServer_fail env _ ti k message); try done.
Qed.

(** C2, as the code has it: when the handshake of round [k] is the
    first to fail, [open] rejects with the error that names the remote
    host:port and emits it, no handler is created or started, and the
    [k] channels opened before stay open and stay in the pool: nothing
    closes them. *)
Theorem open_handshake_failure env w ti k message :
  checkLocalServer (opts (this w)) (probe env) = inr tt ->
  getTunnelInfo (opts (this w)) (allocation env) = inr ti ->
  k < Nat.min (cpus env) 16 ->
  (forall j, j < k -> handshake env j = HandshakeOpen) ->
  handshake env k = HandshakeError message ->
  let w' := snd (open env w) in
  fst (open env w) = inl (handshake_failure ti message) /\
  emitted w' = emitted w ++ [EvError (handshake_failure ti message)] /\
  handlers w' = handlers w /\
  h2Handler (this w') = h2Handler (this w) /\
  wsConnections (this w') = wsConnections (this w) ++ seq (length (sockets w)) k /\
  sockets w' = sockets w ++ map (opened_socket (opts (this w)) ti) (seq 0 k)
                 ++ [failed_socket (opts (this w)) ti].
Proof.
  intros Hprobe Halloc Hk Hok Hfail. cbv zeta.
  rewrite (open_fail_result env w ti k message Hprobe Halloc Hk Hok Hfail).
  destruct w as [[o c h conns ti' u tid] l hs ev lg]. cbn. done.
Qed.

Lemma open_handshake_failure_witness :
  fst (open Samples.env_second_fails (new_Tunnel Samples.options))
  = inl "WebSocket connection failed: socket hang up (abbreviated.ai:443)" /\
  handlers (snd (open Samples.env_second_fails (new_Tunnel Samples.options))) = [].
Proof.
  pose proof (open_handshake_failure Samples.env_second_fails (new_Tunnel Samples.options)
                (mkTunnelInfo (Some (Json.JStr "abc")) "https://abc.abbreviated.ai/"
                   "abbreviated.ai" 443) 1 "socket hang up"
                eq_refl eq_refl) as H.
  destruct H as (H1 & _ & H3 & _).
  - vm_compute. lia.
  - intros j Hj. destruct j; [reflexivity|lia].
  - reflexivity.
  - split; [exact H1 | exact H3].
Defined.

(** C2 fails as stated: with two CPUs and a second handshake that
    fails, [open] rejects while the first channel is still open, never
    closed, and still in the pool. *)
Lemma failed_setup_leaves_channel_open :
  fst (createTunnel Samples.options Samples.env_second_fails)
  = inl "WebSocket connection failed: socket hang up (abbreviated.ai:443)" /\
  wsConnections (this (snd (createTunnel Samples.options Samples.env_second_fails))) = [0] /\
  sockets (snd (createTunnel Samples.options Samples.env_second_fails)) !! 0
  = Some (mkWebSocket "wss://abbreviated.ai/connect?tunnel_id=abc"
            [("Authorization", "Bearer undefined")] OPEN (Some 0) 0).
Proof. vm_compute. done. Qed.

(** The handshakes of a pool either all succeed, or there is a first
    one that fails. *)
Lemma handshake_cases env n :
  (forall i, i < n -> handshake env i = HandshakeOpen) \/
  (exists k message, k < n /\ (forall j, j < k -> handshake env j = HandshakeOpen)
                     /\ handshake env k = HandshakeError message).
Proof.
  induction n as [|n IH].
  - left. intros i Hi. lia.
  - destruct IH as [Hall|(k & message & Hk & Hok & Hfail)].
    + destruct (handshake env n) as [|message] eqn:E.
      * left. intros i Hi. destruct (decide (i = n)) as [->|]; [exact E|apply Hall; lia].
      * right. exists n, message. split; [lia|]. split; [|exact E].
        intros j Hj. apply Hall, Hj.
    + right. exists k, message. split; [lia|]. split; assumption.
Qed.

Lemma created_socket_headers o ti n extra i x :
  (map (opened_socket o ti) (seq 0 n) ++ extra) !! i = Some x ->
  Forall (fun y => ws_headers y = handshake_headers o) extra ->
  ws_headers x = handshake_headers o.
Proof.
  intros Hx Hextra.
  apply list_elem_of_lookup_2, elem_of_app in Hx as [Hx|Hx].
  - apply list_elem_of_fmap in Hx as (j & -> & _). reflexivity.
  - rewrite Forall_forall in Hextra. apply Hextra, Hx.
Qed.

(** C9: every socket that [connectToServer] creates, whatever the
    handshakes answer, carries the one header Authorization, whose
    value is "Bearer " followed by the token, or by "undefined" when no
    token is configured; the allocation request carries Authorization
    only for a token that is present and not empty. *)
Theorem authorization_headers env w ti :
  tunnelInfo (this w) = Some ti ->
  let o := opts (this w) in
  let w' := snd (connectToServer env w) in
  (forall ws x, length (sockets w) <= ws -> sockets w' !! ws = Some x ->
     ws_headers x =
     [("Authorization",
       "Bearer " +:+ match apiToken o with Some t => t | None => "undefined" end)]) /\
  allocation_headers o =
    ("Content-Type", "application/json") ::
    match apiToken o with
    | Some t => if String.eqb t "" then [] else [("Authorization", "Bearer " +:+ t)]
    | None => []
    end.
Proof.
  intros Hti. cbv zeta. split.
  - intros ws x Hlen Hx.
    change ([("Authorization",
              "Bearer " +:+ match apiToken (opts (this w)) with
                            | Some t => t
                            | None => "undefined"
                            end)])
      with (handshake_headers (opts (this w))).
    destruct (handshake_cases env (numConnections env))
      as [Hall|(k & message & Hk & Hok & Hfail)].
    + rewrite (connectToServer_ok env w ti Hti Hall) in Hx. cbn in Hx.
      rewrite lookup_app_r in Hx by exact Hlen.
      apply (created_socket_headers _ ti (numConnections env) []
               (ws - length (sockets w))).
      * rewrite app_nil_r. exact Hx.
      * constructor.
    + rewrite (connectToServer_fail env w ti k message Hti Hk Hok Hfail) in Hx.
      cbn in Hx. rewrite lookup_app_r in Hx by exact Hlen.
      apply (created_socket_headers _ ti k [failed_socket (opts (this w)) ti]
               (ws - length (sockets w))).
      * exact Hx.
      * constructor; [reflexivity|constructor].
  - unfold allocation_headers, JsString.truthy, JsString.template.
    destruct (apiToken (opts (this w))) as [t|]; [|reflexivity].
    destruct (String.eqb t ""); reflexivity.
Qed.

Lemma authorization_headers_witness :
  tunnelInfo (this Samples.allocated) = Some Samples.example_info /\
  apiToken (opts (this Samples.allocated)) = None /\
  (ws_headers <$>
     sockets (snd (connectToServer (Samples.env_ok 2) Samples.allocated)) !! 1)
  = Some [("Authorization", "Bearer undefined")] /\
  allocation_headers (opts (this Samples.allocated))
  = [("Content-Type", "application/json")].
Proof.
  split; [reflexivity|]. split; [reflexivity|].
  destruct (authorization_headers (Samples.env_ok 2) Samples.allocated
              Samples.example_info eq_refl) as [H1 H2].
  split; [|exact H2].
  destruct (sockets (snd (connectToServer (Samples.env_ok 2) Samples.allocated)) !! 1)
    as [x|] eqn:E.
  - cbn. f_equal. apply (H1 1 x); [cbn; lia|exact E].
  - vm_compute in E. discriminate.
Defined.

(** *** Teardown *)

Lemma close_each_sockets conns : forall w,
  close_each conns w =
  (inr tt,
   mkWorld (this w) (foldl (fun acc ws => close_socket ws acc) (sockets w) conns)
     (handlers w) (emitted w) (console w)).
Proof.
  induction conns as [|ws rest IH]; intros w.
  - destruct w; reflexivity.
  - destruct w as [t l hs ev lg].
    cbn [close_each]. unfold bind at 1. unfold gets at 1. unfold bind at 1.
    cbn [sockets foldl this handlers emitted console]. unfold close_socket at 2.
    destruct (default false (is_open_or_connecting <$> (readyState <$> l !! ws))).
    + unfold modify at 1. rewrite IH. reflexivity.
    + unfold ret at 1. rewrite IH. reflexivity.
Qed.

Lemma close_socket_lookup ws ws' l x :
  close_socket ws l !! ws' = Some x ->
  exists y, l !! ws' = Some y /\ (not_open y -> not_open x) /\ (ws = ws' -> not_open x).
Proof.
  unfold close_socket. intros H.
  destruct (l !! ws) as [z|] eqn:Ez; simpl in H.
  - destruct (is_open_or_connecting (readyState z)) eqn:E.
    + destruct (decide (ws = ws')) as [->|Hne].
      * rewrite list_lookup_alter_eq, Ez in H. simpl in H. inversion H; subst.
        exists z. split; [done|]. split; intros _; split; cbn; discriminate.
      * rewrite list_lookup_alter_ne in H by done.
        exists x. split; [done|]. split; [done|]. intros ->. done.
    + exists x. split; [done|]. split; [done|]. intros ->.
      rewrite Ez in H. inversion H; subst.
      unfold is_open_or_connecting in E. apply orb_false_elim in E as [E1 E2].
      apply bool_decide_eq_false in E1, E2. done.
  - exists x. split; [done|]. split; [done|]. intros ->. congruence.
Qed.

(** After the loop of [close] no channel of the pool is open or
    connecting, and no other channel was opened. *)
Lemma close_all_lookup conns : forall l ws' x,
  foldl (fun acc ws => close_socket ws acc) l conns !! ws' = Some x ->
  exists y, l !! ws' = Some y /\ (not_open y -> not_open x)
            /\ (ws' ∈ conns -> not_open x).
Proof.
  induction conns as [|ws rest IH]; intros l ws' x H.
  - exists x. simpl in H. split; [done|]. split; [done|]. intros Hin. inversion Hin.
  - simpl in H. apply IH in H as (y & Hy & Hkeep & Hin).
    apply close_socket_lookup in Hy as (z & Hz & Hkeep' & Hhere).
    exists z. split; [done|]. split; [tauto|].
    intros Hmem. apply elem_of_cons in Hmem as [->|Hmem]; [|tauto].
    apply Hkeep, Hhere. reflexivity.
Qed.

(** [close] never throws, and this is the world it leaves. *)
Lemma close_result w :
  close w =
  (inr tt,
   mkWorld
     (mkTunnel (opts (this w)) true None [] (tunnelInfo (this w)) (public_url (this w))
        (tunnelId (this w)))
     (foldl (fun acc ws => close_socket ws acc) (sockets w) (wsConnections (this w)))
     (match h2Handler (this w) with
      | Some h => alter Http2Handler.close h (handlers w)
      | None => handlers w
      end)
     (emitted w ++ [EvClose]) (console w)).
Proof.
  destruct w as [[o c h conns ti u tid] l hs ev lg].
  unfold close. unfold bind at 1. unfold modify at 1. unfold bind at 1. unfold gets at 1.
  cbn [with_this this set_closed h2Handler opts wsConnections tunnelInfo public_url tunnelId].
  destruct h as [h|].
  - unfold bind at 1. unfold bind at 1. unfold modify at 1. unfold modify at 1.
    unfold bind at 1. unfold gets at 1. cbn.
    unfold bind at 1. rewrite close_each_sockets. reflexivity.
  - unfold bind at 1. unfold ret at 1. unfold bind at 1. unfold gets at 1. cbn.
    unfold bind at 1. rewrite close_each_sockets. reflexivity.
Qed.

(** C1, as the code has it: [close] never throws; the first call sets
    the closed flag, closes the handler, leaves no channel of the pool
    open or connecting and clears the pool; a second call changes
    nothing of the tunnel, its handler or its channels, but emits
    [close] again: two calls emit two [close] events. *)
Theorem close_twice w :
  let w1 := snd (close w) in
  let w2 := snd (close w1) in
  fst (close w) = inr tt /\ fst (close w1) = inr tt /\
  closed (this w1) = true /\ h2Handler (this w1) = None /\
  wsConnections (this w1) = [] /\
  handlers w1 = match h2Handler (this w) with
                | Some h => alter Http2Handler.close h (handlers w)
                | None => handlers w
                end /\
  (forall ws x, ws ∈ wsConnections (this w) -> sockets w1 !! ws = Some x -> not_open x) /\
  emitted w1 = emitted w ++ [EvClose] /\
  w2 = add_event EvClose w1 /\
  close_events w2 = close_events w + 2.
Proof.
  cbv zeta. rewrite !close_result. cbn.
  split_and!; try reflexivity.
  - intros ws x Hin Hx. apply close_all_lookup in Hx as (y & _ & _ & H). exact (H Hin).
  - unfold close_events. cbn. rewrite !List.filter_app, !length_app. cbn. lia.
Qed.

(** C1 fails as stated: on an established tunnel, which has emitted
    no [close] yet, two calls of [close] emit two [close] events. *)
Lemma second_close_emits_again :
  close_events (Samples.established 2) = 0 /\
  close_events (snd (close (snd (close (Samples.established 2))))) = 2 /\
  close_events (snd (close (snd (close (Samples.established 2))))) <> 1.
Proof. vm_compute. split_and!; [reflexivity | reflexivity | discriminate]. Qed.

(** *** Control frames *)

Lemma on_message_closed data isBinary w :
  closed (this w) = true -> on_message data isBinary w = (inr tt, w).
Proof.
  intros Hc. unfold on_message, bind, gets. rewrite Hc, orb_true_r. reflexivity.
Qed.










End TunnelProofs.

(* ===================================================================== *)
(** ** Properties of [TunnelHTTP2Handler] *)
(* ===================================================================== *)

Module HandlerProofs.

Import Http2Handler HandlerNotions.

(** *** Header filtering *)

(** The loop that copies the entries whose key satisfies [keep]. *)
Lemma copy_loop_lookup {V} (keep : string -> bool) (hs : gmap string V) (k : string) :
  map_fold (fun key value (acc : gmap string V) =>
              if keep key then <[key := value]> acc else acc) ∅ hs !! k
  = if keep k then hs !! k else None.
Proof.
  apply (map_fold_weak_ind
           (fun (r : gmap string V) (m : gmap string V) =>
              r !! k = if keep k then m !! k else None)).
  - rewrite !lookup_empty. destruct (keep k); reflexivity.
  - intros i x m r Hi IH.
    destruct (decide (i = k)) as [->|Hne].
    + destruct (keep k).
      * rewrite !lookup_insert_eq. reflexivity.
      * exact IH.
    + rewrite (lookup_insert_ne m) by done.
      destruct (keep i).
      * rewrite lookup_insert_ne by done. exact IH.
      * exact IH.
Qed.

Lemma has_hop_by_hop key :
  has HOP_BY_HOP_HEADERS (JsString.toLowerCase key) = is_hop_by_hop key.
Proof.
  unfold has, is_hop_by_hop, HOP_BY_HOP_HEADERS, hop_by_hop_names.
  apply bool_decide_ext. set_unfold. tauto.
Qed.

(** C8: the headers of the request to the local server are those of
    the virtual request without the names that start with a colon,
    without the seven hop-by-hop names (whatever their case) and
    without [host] and [upgrade]; the headers written on the virtual
    response are those of the local response without the seven
    hop-by-hop names. *)
Theorem forwarded_headers o req status hs x k :
  lr_headers (handleHttpRequest o req) !! k =
    (if JsString.startsWith k ":" || is_hop_by_hop k
        || String.eqb k "host" || String.eqb k "upgrade"
     then None else req_headers req !! k)
  /\ responseHeaders hs !! k = (if is_hop_by_hop k then None else hs !! k)
  /\ match on_local_response status hs x with
     | inr x' =>
         headersSent (res x) = false /\
         headers (res x') = responseHeaders hs /\
         headers (res x') !! k = (if is_hop_by_hop k then None else hs !! k)
     | inl _ => headersSent (res x) = true
     end.
Proof.
  assert (responseHeaders hs !! k = (if is_hop_by_hop k then None else hs !! k)) as Hres.
  { unfold responseHeaders.
    rewrite (copy_loop_lookup
               (fun key => negb (has HOP_BY_HOP_HEADERS (JsString.toLowerCase key)))).
    rewrite has_hop_by_hop. destruct (is_hop_by_hop k); reflexivity. }
  split_and!.
  - unfold handleHttpRequest, headersToForward. cbn [lr_headers].
    destruct (String.eqb k "upgrade") eqn:Eu.
    { apply String.eqb_eq in Eu. subst k.
      rewrite lookup_delete_eq, !orb_true_r. reflexivity. }
    apply String.eqb_neq in Eu. rewrite lookup_delete_ne by done.
    destruct (String.eqb k "host") eqn:Eh.
    { apply String.eqb_eq in Eh. subst k.
      rewrite lookup_delete_eq, !orb_true_r. reflexivity. }
    apply String.eqb_neq in Eh. rewrite lookup_delete_ne by done.
    rewrite (copy_loop_lookup
               (fun key => negb (JsString.startsWith key ":")
                           && negb (has HOP_BY_HOP_HEADERS (JsString.toLowerCase key)))).
    rewrite has_hop_by_hop, !orb_false_r.
    destruct (JsString.startsWith k ":"), (is_hop_by_hop k); reflexivity.
  - exact Hres.
  - unfold on_local_response, writeHead.
    destruct (headersSent (res x)); [reflexivity|].
    cbn. split_and!; [reflexivity | reflexivity | exact Hres].
Qed.

Example connection_not_relayed :
  responseHeaders
    (<["Connection" := HStr "keep-alive"]>
       (<["Transfer-Encoding" := HStr "chunked"]>
          (<["content-type" := HStr "text/html"]> ∅)))
  = <["content-type" := HStr "text/html"]> ∅.
Proof. vm_compute. reflexivity. Qed.

Example request_headers_filtered :
  headersToForward
    (<[":method" := HStr "GET"]>
       (<["host" := HStr "abc.example"]>
          (<["te" := HStr "trailers"]>
             (<["accept" := HStr "*/*"]> ∅))))
  = <["accept" := HStr "*/*"]> ∅.
Proof. vm_compute. reflexivity. Qed.

(** *** Failures of the HTTP forwarder *)



Example failure_before_headers :
  on_local_request_error "connect ECONNREFUSED" (mkExchange fresh_response []) =
    inr (mkExchange
           (mkResponse true 502 TEXT_PLAIN
              ["Failed to connect to local server: connect ECONNREFUSED"] true false)
           ["Local request error: connect ECONNREFUSED"]).
Proof. reflexivity. Qed.

(** *** The WebSocket bridge *)

Lemma bridge_step_sent e b :
  bridged b = true -> bridge_event e ->
  exists b1, bridge_step e b = inr b1 /\ bridged b1 = true /\
    forall es,
      sent (localWs b1) ++ accepted (readyState (localWs b1)) es
      = sent (localWs b) ++ accepted (readyState (localWs b)) (e :: es).
Proof.
  intros Hb He.
  destruct b as [[s snt n] [hsent status hs body e' c] br h he lg]. cbn in Hb. subst br.
  destruct e as [| message | s' | data | | chunk |]; try (cbn in He; contradiction);
    cbn [bridge_step bridged].
  - eexists. split; [reflexivity|]. split; [reflexivity|]. intros es. reflexivity.
  - unfold on_ws_message, write. cbn.
    destruct c, e'; cbn; (eexists; split; [reflexivity|]; split; [reflexivity|];
      intros es; reflexivity).
  - unfold on_ws_close, end_. cbn.
    destruct c, e'; cbn; (eexists; split; [reflexivity|]; split; [reflexivity|];
      intros es; reflexivity).
  - unfold on_req_data. cbn [localWs readyState accepted sent].
    case_bool_decide as Hs; (eexists; split; [reflexivity|]; split; [reflexivity|]).
    + intros es. cbn. rewrite <- app_assoc. reflexivity.
    + intros es. reflexivity.
  - unfold on_req_end. cbn [localWs readyState accepted sent].
    case_bool_decide as Hs; (eexists; split; [reflexivity|]; split; [reflexivity|]);
      intros es; reflexivity.
Qed.

Lemma bridge_run_sent es : forall b,
  bridged b = true -> Forall bridge_event es ->
  exists b', bridge_run es b = inr b' /\
             sent (localWs b')
             = sent (localWs b) ++ accepted (readyState (localWs b)) es.
Proof.
  induction es as [|e es IH]; intros b Hb Hes.
  - exists b. rewrite app_nil_r. done.
  - inversion Hes as [|? ? He Hrest]; subst.
    destruct (bridge_step_sent e b Hb He) as (b1 & Hstep & Hb1 & Hsent).
    destruct (IH b1 Hb1 Hrest) as (b' & Hrun & Hs).
    exists b'. cbn [bridge_run]. rewrite Hstep. split; [exact Hrun|].
    rewrite Hs. apply Hsent.
Qed.

(** C10: once the bridge is established, a chunk of the virtual
    stream is handed to [send] when the local socket is [OPEN] and
    changes nothing otherwise, so that whatever follows runs as if
    the chunk had never come; the end of the virtual stream calls
    [close] on the local socket when it is [OPEN] and changes nothing
    otherwise; over any run of events, what was sent is exactly the
    chunks that arrived while the socket was [OPEN], in their order. *)
Theorem bridge_forwards_only_when_open b chunk es :
  bridged b = true ->
  Forall bridge_event es ->
  bridge_step (VirtualData chunk) b =
    inr (if bool_decide (readyState (localWs b) = OPEN)
         then with_localWs (ws_send chunk) b else b)
  /\ bridge_step VirtualEnd b =
    inr (if bool_decide (readyState (localWs b) = OPEN)
         then with_localWs ws_close b else b)
  /\ bridge_run (VirtualData chunk :: es) b =
    (if bool_decide (readyState (localWs b) = OPEN)
     then bridge_run es (with_localWs (ws_send chunk) b)
     else bridge_run es b)
  /\ exists b', bridge_run es b = inr b' /\
                sent (localWs b')
                = sent (localWs b) ++ accepted (readyState (localWs b)) es.
Proof.
  intros Hb Hes. split_and!.
  - cbn. rewrite Hb. reflexivity.
  - cbn. rewrite Hb. reflexivity.
  - cbn. rewrite Hb. unfold on_req_data. case_bool_decide; reflexivity.
  - apply bridge_run_sent; assumption.
Qed.

Lemma bridge_forwards_only_when_open_witness :
  bridged Samples.open_bridge = true /\
  match bridge_run [VirtualData "a"; LocalState CLOSING; VirtualData "b";
                    LocalState OPEN; VirtualData "c"; VirtualEnd; VirtualData "d"]
          Samples.open_bridge with
  | inr b => sent (localWs b) = ["a"; "c"]
  | inl _ => False
  end.
Proof.
  split; [reflexivity|].
  destruct (bridge_forwards_only_when_open Samples.open_bridge "x"
              [VirtualData "a"; LocalState CLOSING; VirtualData "b";
               LocalState OPEN; VirtualData "c"; VirtualEnd; VirtualData "d"] eq_refl)
    as (_ & _ & _ & b' & Hrun & Hsent).
  - repeat (constructor; [exact I|]). constructor.
  - rewrite Hrun. exact Hsent.
Defined.

Example held_chunks_released :
  match bridge_run [VirtualData "early"; LocalOpened; VirtualData "late"] new_bridge with
  | inr b => sent (localWs b) = ["early"; "late"]
  | inl _ => False
  end.
Proof. reflexivity. Qed.

End HandlerProofs.

(* ===================================================================== *)
(** ** The controller: probe, allocation, [open], the channel listeners *)
(* ===================================================================== *)

Module ControllerProofs.

Import Tunnel TunnelNotions TextNotions SessionNotions TunnelProofs.

Lemma prefix_app p s : String.prefix p (p +:+ s) = true.
Proof.
  induction p as [|c p IH]; simpl.
  - destruct s; reflexivity.
  - destruct (ascii_dec c c); [exact IH|congruence].
Qed.

Lemma includes_unfold s sub :
  JsString.includes s sub =
  String.prefix sub s || match s with
                         | EmptyString => false
                         | String _ r => JsString.includes r sub
                         end.
Proof. destruct s; reflexivity. Qed.

Lemma includes_here p s : JsString.includes (p +:+ s) p = true.
Proof. rewrite includes_unfold, prefix_app. reflexivity. Qed.

Lemma includes_self s : JsString.includes s s = true.
Proof.
  rewrite includes_unfold.
  replace (String.prefix s s) with true; [reflexivity|].
  symmetry. induction s as [|c s IH]; simpl; [reflexivity|].
  destruct (ascii_dec c c); [exact IH|congruence].
Qed.

Lemma includes_later a s sub :
  JsString.includes s sub = true -> JsString.includes (a +:+ s) sub = true.
Proof.
  intros H. induction a as [|c a IH]; [exact H|].
  change (String c a +:+ s) with (String c (a +:+ s)).
  rewrite includes_unfold, IH. apply orb_true_r.
Qed.

Lemma includes_middle a b c : JsString.includes (a +:+ b +:+ c) b = true.
Proof. apply includes_later, includes_here. Qed.

(** X1. [checkLocalServer] resolves only when the probe was answered.
    Every rejection names the local [host:port]; a timeout says
    (timeout), a refused connection says (connection refused), and any
    other error carries the message of the cause. *)
Theorem probe_failure_names_address o p :
  match checkLocalServer o p with
  | inr _ => p = ProbeResponded
  | inl e =>
      JsString.includes e (localHost o +:+ ":" +:+ JsString.of_N (port o)) = true /\
      match p with
      | ProbeResponded => False
      | ProbeTimeout => JsString.includes e "(timeout)" = true
      | ProbeError code message =>
          if bool_decide (code = Some "ECONNREFUSED")
          then JsString.includes e "(connection refused)" = true
          else JsString.includes e message = true
      end
  end.
Proof.
  destruct p as [| |code message]; cbn [checkLocalServer]; [reflexivity| |].
  - split; [apply includes_middle|].
    apply includes_later, includes_later. reflexivity.
  - case_bool_decide.
    + split; [apply includes_middle|].
      apply includes_later, includes_later. reflexivity.
    + split; [apply includes_middle|].
      apply includes_later, includes_later, includes_later, includes_self.
Qed.

(** X2. A transport failure of the allocation request is told by its
    kind: a timeout, a refused connection and an unanswered request
    (ETIMEDOUT, or a message with socket hang up) name the server
    [host:apiPort], an unresolved host names the host, and any other
    error is passed on with its message unchanged. *)
Theorem allocation_transport_failure o code message :
  (exists e, getTunnelInfo o AllocTimeout = inl e /\
             JsString.includes e (serverHost o +:+ ":" +:+ JsString.of_N (apiPort o)) = true /\
             JsString.includes e "timed out" = true)
  /\ exists e, getTunnelInfo o (AllocError code message) = inl e /\
       if bool_decide (code = Some "ECONNREFUSED") then
         JsString.includes e (serverHost o +:+ ":" +:+ JsString.of_N (apiPort o)) = true /\
         JsString.includes e "(connection refused)" = true
       else if bool_decide (code = Some "ENOTFOUND") then
         JsString.includes e (serverHost o) = true /\
         JsString.includes e "could not be resolved" = true
       else if bool_decide (code = Some "ETIMEDOUT")
               || JsString.includes message "socket hang up" then
         JsString.includes e (serverHost o +:+ ":" +:+ JsString.of_N (apiPort o)) = true /\
         JsString.includes e "is not responding" = true
       else e = message.
Proof.
  split.
  - eexists. split; [reflexivity|]. split.
    + apply includes_middle.
    + apply includes_later, includes_later. reflexivity.
  - cbn [getTunnelInfo].
    case_bool_decide.
    { eexists. split; [reflexivity|]. split.
      - apply includes_middle.
      - apply includes_later, includes_later. reflexivity. }
    case_bool_decide.
    { eexists. split; [reflexivity|]. split.
      - apply includes_middle.
      - apply includes_later, includes_later. reflexivity. }
    destruct (bool_decide (code = Some "ETIMEDOUT") || JsString.includes message "socket hang up").
    { eexists. split; [reflexivity|]. split.
      - apply includes_middle.
      - apply includes_later, includes_later. reflexivity. }
    eexists. split; reflexivity.
Qed.



Lemma open_early_failure env w e :
  checkLocalServer (opts (this w)) (probe env) = inl e \/
  (checkLocalServer (opts (this w)) (probe env) = inr tt /\
   getTunnelInfo (opts (this w)) (allocation env) = inl e) ->
  open env w = (inl e, add_event (EvError e) w).
Proof.
  intros [H|[H1 H2]]; unfold open, try_catch.
  - unfold bind at 1. unfold gets at 1. unfold bind at 1. unfold lift at 1. rewrite H.
    reflexivity.
  - unfold bind at 1. unfold gets at 1. unfold bind at 1. unfold lift at 1. rewrite H1.
    unfold bind at 1. unfold lift at 1. rewrite H2. reflexivity.
Qed.

Lemma open_ok_result env w ti :
  checkLocalServer (opts (this w)) (probe env) = inr tt ->
  getTunnelInfo (opts (this w)) (allocation env) = inr ti ->
  (forall i, i < numConnections env -> handshake env i = HandshakeOpen) ->
  open env w = (inr tt, opened_world env w ti).
Proof.
  intros Hprobe Halloc Hok.
  unfold open, try_catch.
  unfold bind at 1. unfold gets at 1. unfold bind at 1. unfold lift at 1. rewrite Hprobe.
  unfold bind at 1. unfold lift at 1. rewrite Halloc.
  unfold bind at 1. unfold modify at 1. unfold bind at 1.
  rewrite (connectToServer_ok env _ ti); [|destruct w as [[] ? ? ? ?]; reflexivity|exact Hok].
  destruct w as [[o c h conns ti' u tid] l hs ev lg]. reflexivity.
Qed.

(** X9. [open] never changes the [closed] flag.  When it resolves, the
    allocation had resolved and the tunnel is the established one: info,
    URL and id set, the pool and the started handler appended, one
    [open] event emitted.  When it rejects with an error, exactly one
    [error] event carrying that error was emitted, and no handler was
    created. *)
Theorem open_outcome env w :
  closed (this (snd (open env w))) = closed (this w) /\
  match fst (open env w) with
  | inr _ =>
      exists ti, getTunnelInfo (opts (this w)) (allocation env) = inr ti /\
                 snd (open env w) = opened_world env w ti
  | inl e =>
      emitted (snd (open env w)) = emitted w ++ [EvError e] /\
      handlers (snd (open env w)) = handlers w /\
      h2Handler (this (snd (open env w))) = h2Handler (this w)
  end.
Proof.
  destruct (checkLocalServer (opts (this w)) (probe env)) as [e|[]] eqn:Hprobe.
  { rewrite (open_early_failure env w e) by (left; exact Hprobe).
    destruct w as [[] ? ? ? ?]. cbn. done. }
  destruct (getTunnelInfo (opts (this w)) (allocation env)) as [e|ti] eqn:Halloc.
  { rewrite (open_early_failure env w e) by (right; done).
    destruct w as [[] ? ? ? ?]. cbn. done. }
  destruct (handshake_cases env (numConnections env))
    as [Hall|(k & message & Hk & Hok & Hfail)].
  - rewrite (open_ok_result env w ti Hprobe Halloc Hall). cbn.
    split; [reflexivity|]. exists ti. done.
  - rewrite (open_fail_result env w ti k message Hprobe Halloc Hk Hok Hfail).
    destruct w as [[] ? ? ? ?]. cbn. done.
Qed.

(** X10. When the local server does not answer the probe, or the
    allocation fails, [open] rejects with that error, emits it as an
    [error] event, and leaves the tunnel as it was: no channel is opened
    and no handler created. *)
Theorem open_aborts_early env w e :
  checkLocalServer (opts (this w)) (probe env) = inl e \/
  (checkLocalServer (opts (this w)) (probe env) = inr tt /\
   getTunnelInfo (opts (this w)) (allocation env) = inl e) ->
  fst (open env w) = inl e /\
  this (snd (open env w)) = this w /\
  sockets (snd (open env w)) = sockets w /\
  handlers (snd (open env w)) = handlers w /\
  emitted (snd (open env w)) = emitted w ++ [EvError e].
Proof.
  intros H. rewrite (open_early_failure env w e H).
  destruct w as [[] ? ? ? ?]. cbn. done.
Qed.

Lemma open_aborts_early_witness :
  fst (open env_refused (new_Tunnel Samples.options))
  = inl "Local server at localhost:3000 is not running (connection refused)" /\
  sockets (snd (open env_refused (new_Tunnel Samples.options))) = [].
Proof.
  destruct (open_aborts_early env_refused (new_Tunnel Samples.options)
              "Local server at localhost:3000 is not running (connection refused)"
              (or_introl eq_refl)) as (H1 & _ & H3 & _).
  split; [exact H1|exact H3].
Defined.

(** X11. When the probe is answered, the allocation resolves and every
    handshake succeeds, [open] resolves: the info, the public URL and
    the id are those of the allocation, one [open] event carries the
    URL, the pool holds min(cpus, 16) new channels in the order of their
    creation, and one handler was created over the streams of exactly
    these channels, for the local host and port, and was started. *)
Theorem open_establishes env w ti :
  checkLocalServer (opts (this w)) (probe env) = inr tt ->
  getTunnelInfo (opts (this w)) (allocation env) = inr ti ->
  (forall i, i < Nat.min (cpus env) 16 -> handshake env i = HandshakeOpen) ->
  let w' := snd (open env w) in
  let pool := seq (length (sockets w)) (Nat.min (cpus env) 16) in
  fst (open env w) = inr tt /\
  tunnelInfo (this w') = Some ti /\
  public_url (this w') = Some (url ti) /\
  tunnelId (this w') = Some (id ti) /\
  emitted w' = emitted w ++ [EvOpen (url ti)] /\
  wsConnections (this w') = wsConnections (this w) ++ pool /\
  h2Handler (this w') = Some (length (handlers w)) /\
  handlers w' =
    handlers w ++
    [Http2Handler.mkHandler
       (Http2Handler.mkOpts (localHost (opts (this w))) (port (opts (this w)))
          (default false (localHttps (opts (this w)))) pool)
       true pool 0].
Proof.
  intros Hprobe Halloc Hok. cbv zeta.
  rewrite (open_ok_result env w ti Hprobe Halloc Hok). cbn. done.
Qed.

Lemma open_establishes_witness :
  fst (open (Samples.env_ok 4) (new_Tunnel Samples.options)) = inr tt /\
  emitted (snd (open (Samples.env_ok 4) (new_Tunnel Samples.options)))
  = [EvOpen "https://abc.abbreviated.ai/"] /\
  wsConnections (this (snd (open (Samples.env_ok 4) (new_Tunnel Samples.options))))
  = [0; 1; 2; 3].
Proof.
  destruct (open_establishes (Samples.env_ok 4) (new_Tunnel Samples.options)
              (mkTunnelInfo (Some (Json.JStr "abc")) "https://abc.abbreviated.ai/"
                 "abbreviated.ai" 443)
              eq_refl eq_refl (fun i _ => eq_refl)) as (H1 & _ & _ & _ & H5 & H6 & _).
  split_and!; [exact H1 | exact H5 | exact H6].
Defined.

Lemma deliver_closed ws e w :
  closed (this w) = true ->
  exists w', deliver ws e w = (inr tt, w') /\ same_but_sockets w w'.
Proof.
  intros Hc. unfold deliver. unfold bind at 1. unfold gets at 1.
  destruct (sockets w !! ws ≫= ws_index) as [i|].
  - destruct e as [data isBinary|message|].
    + rewrite on_message_closed by exact Hc. exists w. done.
    + unfold on_error, bind, gets. rewrite Hc. exists w. done.
    + unfold bind at 1. unfold modify at 1.
      unfold on_close, bind, gets. destruct w as [t l hs ev lg]. cbn in Hc |- *.
      rewrite Hc. cbn. eexists. split; [reflexivity|].
      unfold same_but_sockets. cbn. rewrite length_alter. done.
  - exists w. done.
Qed.

(** X12. Once the tunnel is closed, whatever its channels deliver --
    messages, errors, closes -- raises nothing, emits no event, writes
    no log line and changes neither the tunnel nor its handlers; only
    the state of the sockets may change. *)
Theorem quiet_after_close es : forall w,
  closed (this w) = true ->
  fst (deliver_all es w) = inr tt /\ same_but_sockets w (snd (deliver_all es w)).
Proof.
  induction es as [|[ws e] es IH]; intros w Hc.
  - cbn. done.
  - cbn [deliver_all]. unfold bind.
    destruct (deliver_closed ws e w Hc) as (w' & -> & H1 & H2 & H3 & H4 & H5).
    destruct (IH w') as (Hr & G1 & G2 & G3 & G4 & G5); [congruence|].
    split; [exact Hr|]. unfold same_but_sockets. split_and!; congruence.
Qed.

Lemma quiet_after_close_witness :
  closed (this (snd (close (Samples.established 2)))) = true /\
  emitted (snd (deliver_all [(0, WsError "reset"); (0, WsClose);
                             (1, WsMessage Samples.tunnel_done_frame false)]
                 (snd (close (Samples.established 2)))))
  = emitted (snd (close (Samples.established 2))).
Proof.
  split; [reflexivity|].
  destruct (quiet_after_close [(0, WsError "reset"); (0, WsClose);
                               (1, WsMessage Samples.tunnel_done_frame false)]
              (snd (close (Samples.established 2))) eq_refl) as (_ & _ & _ & H & _).
  exact H.
Defined.

(** X13. On an open tunnel, the close of the channel of round [j] is
    logged as [WebSocket j+1 closed] and nothing else happens: the
    channel stays in the pool and the tunnel stays open; an error of a
    channel is emitted as an [error] event and changes nothing else. *)
Theorem channel_trouble env w ti j message :
  tunnelInfo (this w) = Some ti ->
  closed (this w) = false ->
  (forall i, i < Nat.min (cpus env) 16 -> handshake env i = HandshakeOpen) ->
  j < Nat.min (cpus env) 16 ->
  let w1 := snd (connectToServer env w) in
  let ws := length (sockets w) + j in
  deliver ws WsClose w1 =
    (inr tt,
     add_log ("WebSocket " +:+ JsString.of_nat (j + 1) +:+ " closed")
       (with_sockets (alter (set_readyState CLOSED) ws) w1))
  /\ deliver ws (WsError message) w1 = (inr tt, add_event (EvError message) w1).
Proof.
  intros Hti Hc Hok Hj. cbv zeta.
  rewrite (connectToServer_ok env w ti Hti Hok).
  destruct w as [[o c h conns ti' u tid] l hs ev lg]. cbn in Hc, Hti |- *. subst c.
  assert ((l ++ map (opened_socket o ti) (seq 0 (numConnections env))) !! (length l + j)
          ≫= ws_index = Some j) as Hidx.
  { rewrite lookup_app_r by lia. replace (length l + j - length l) with j by lia.
    rewrite list_lookup_fmap, lookup_seq_lt by exact Hj. reflexivity. }
  unfold deliver, bind, gets. cbn [sockets]. rewrite Hidx.
  split; reflexivity.
Qed.

Lemma channel_trouble_witness :
  console (snd (deliver 2 WsClose (snd (connectToServer (Samples.env_ok 4) Samples.allocated))))
  = ["WebSocket 3 closed"].
Proof.
  destruct (channel_trouble (Samples.env_ok 4) Samples.allocated Samples.example_info 2 "x"
              eq_refl eq_refl (fun i _ => eq_refl)) as [H _].
  - vm_compute. lia.
  - exact (f_equal (fun r => console (snd r)) H).
Defined.

Lemma close_socket_other ws ws' l :
  ws <> ws' -> close_socket ws l !! ws' = l !! ws'.
Proof.
  intros Hne. unfold close_socket.
  destruct (default false _); [|reflexivity].
  apply list_lookup_alter_ne, Hne.
Qed.

Lemma close_socket_same ws l x :
  l !! ws = Some x ->
  close_socket ws l !! ws
  = Some (if is_open_or_connecting (readyState x) then ws_close x else x).
Proof.
  intros Hx. unfold close_socket. rewrite Hx. cbn.
  destruct (is_open_or_connecting (readyState x)); [|exact Hx].
  rewrite list_lookup_alter_eq, Hx. reflexivity.
Qed.

Lemma close_all_exact conns : forall l ws x,
  l !! ws = Some x ->
  foldl (fun acc ws => close_socket ws acc) l conns !! ws
  = Some (if bool_decide (ws ∈ conns) && is_open_or_connecting (readyState x)
          then ws_close x else x).
Proof.
  induction conns as [|a rest IH]; intros l ws x Hx.
  - cbn. exact Hx.
  - cbn [foldl]. destruct (decide (a = ws)) as [->|Hne].
    + rewrite (IH _ ws _ (close_socket_same ws l x Hx)).
      rewrite (bool_decide_eq_true_2 (ws ∈ ws :: rest)) by (left).
      destruct (is_open_or_connecting (readyState x)) eqn:E; cbn.
      * rewrite andb_false_r. reflexivity.
      * rewrite E, andb_false_r. reflexivity.
    + rewrite (IH (close_socket a l) ws x) by (rewrite close_socket_other; done).
      replace (bool_decide (ws ∈ a :: rest)) with (bool_decide (ws ∈ rest)); [reflexivity|].
      apply bool_decide_ext. rewrite elem_of_cons. intuition congruence.
Qed.

Lemma close_all_length conns : forall l,
  length (foldl (fun acc ws => close_socket ws acc) l conns) = length l.
Proof.
  induction conns as [|a rest IH]; intros l; [reflexivity|].
  cbn [foldl]. rewrite IH. unfold close_socket.
  destruct (default false _); [apply length_alter|reflexivity].
Qed.

(** X14. [close] calls [ws.close()] once on every channel of the pool
    that is open or connecting, and touches no other socket: one that is
    closing or closed, or one that is not in the pool (the channel of a
    failed handshake). *)
Theorem close_calls_once w ws x :
  sockets w !! ws = Some x ->
  sockets (snd (close w)) !! ws
  = Some (if bool_decide (ws ∈ wsConnections (this w))
             && is_open_or_connecting (readyState x)
          then ws_close x else x)
  /\ length (sockets (snd (close w))) = length (sockets w).
Proof.
  intros Hx. rewrite close_result. cbn [snd sockets].
  split; [apply close_all_exact, Hx|apply close_all_length].
Qed.

Lemma close_calls_once_witness :
  (ws_closeCalls <$> sockets (snd (close (Samples.established 2))) !! 1) = Some 1.
Proof.
  destruct (close_calls_once (Samples.established 2) 1
              (mkWebSocket "wss://abbreviated.ai/connect?tunnel_id=abc"
                 [("Authorization", "Bearer undefined")] OPEN (Some 1) 0) eq_refl) as [H _].
  rewrite H. reflexivity.
Defined.

End ControllerProofs.

(* ===================================================================== *)
(** ** The endpoints, the query string and the failure reason *)
(* ===================================================================== *)

Module EndpointProofs.

Import Tunnel TunnelNotions TextNotions SessionNotions TunnelProofs.
Import ControllerProofs.

Lemma all_chars_app p a b : all_chars p (a +:+ b) = all_chars p a && all_chars p b.
Proof.
  induction a as [|c a IH]; [reflexivity|].
  change (String c a +:+ b) with (String c (a +:+ b)).
  cbn [all_chars]. rewrite IH. apply andb_assoc.
Qed.

Lemma digits_value_acc d : forall acc,
  digits_value (Npos acc) d = Npos (Pos.of_uint_acc d acc).
Proof.
  induction d; intros acc; cbn [digits_value Pos.of_uint_acc]; try reflexivity;
    rewrite <- IHd; f_equal; lia.
Qed.

Lemma digits_value_of_uint d : digits_value 0 d = N.of_uint d.
Proof.
  unfold N.of_uint.
  induction d; cbn [digits_value Pos.of_uint]; try reflexivity;
    try (rewrite <- digits_value_acc; reflexivity).
  exact IHd.
Qed.

Lemma string_of_uint_digits d :
  all_chars Url.is_digit (NilEmpty.string_of_uint d) = true.
Proof. induction d; cbn; try reflexivity; exact IHd. Qed.


Lemma to_uint_nonnil n : N.to_uint n <> Decimal.Nil.
Proof.
  destruct n as [|p]; [discriminate|]. apply DecimalPos.Unsigned.to_uint_nonnil.
Qed.

Lemma of_N_digits n : all_chars Url.is_digit (JsString.of_N n) = true.
Proof. apply string_of_uint_digits. Qed.

Lemma of_N_nonempty n : JsString.of_N n <> "".
Proof.
  unfold JsString.of_N. pose proof (to_uint_nonnil n) as H.
  destruct (N.to_uint n); [congruence| | | | | | | | | |]; discriminate.
Qed.



Lemma substring_all s : String.substring 0 (String.length s) s = s.
Proof. induction s as [|c s IH]; [reflexivity|]. cbn. rewrite IH. reflexivity. Qed.

Lemma eqb_nonempty s : s <> "" -> String.eqb s "" = false.
Proof. intros H. apply String.eqb_neq. exact H. Qed.







Lemma encode_char_safe c : all_chars safe_char (Query.encode_char c) = true.
Proof. destruct c as [[] [] [] [] [] [] [] []]; vm_compute; reflexivity. Qed.

Lemma encode_char_unreserved c :
  Query.is_unreserved c = true -> Query.encode_char c = String c EmptyString.
Proof. destruct c as [[] [] [] [] [] [] [] []]; vm_compute; intros; congruence. Qed.

Lemma form_encode_safe s : all_chars safe_char (Query.form_encode s) = true.
Proof.
  induction s as [|c s IH]; [reflexivity|].
  cbn [Query.form_encode]. rewrite all_chars_app, encode_char_safe, IH. reflexivity.
Qed.

Lemma form_encode_unreserved s :
  all_chars Query.is_unreserved s = true -> Query.form_encode s = s.
Proof.
  induction s as [|c s IH]; [reflexivity|]. cbn [all_chars Query.form_encode].
  intros H. apply andb_true_iff in H as [Hc Hs].
  rewrite (encode_char_unreserved c Hc), (IH Hs). reflexivity.
Qed.

(** X5. The allocation request goes to the endpoint followed by a
    question mark and, when a subdomain that is not empty is configured,
    the one parameter [subdomain] with its form-encoded value; the
    encoded value holds only letters, digits and the marks * - . _ + and
    the percent sign.  Without a subdomain the query is empty. *)
Theorem subdomain_query o :
  Query.fullUrl o =
    allocation_url o +:+ "?" +:+
    match subdomain o with
    | Some s => if String.eqb s "" then "" else "subdomain=" +:+ Query.form_encode s
    | None => ""
    end
  /\ match subdomain o with
     | Some s => all_chars safe_char (Query.form_encode s) = true
     | None => True
     end.
Proof.
  split.
  - unfold Query.fullUrl, Query.queryParams, JsString.truthy, JsString.template.
    destruct (subdomain o) as [s|]; [|reflexivity].
    destruct (String.eqb s ""); reflexivity.
  - destruct (subdomain o); [apply form_encode_safe|exact I].
Qed.

(** X6. A subdomain made of letters, digits and the marks * - . _
    appears in the query as it is. *)
Theorem subdomain_plain o s :
  subdomain o = Some s ->
  s <> "" ->
  all_chars Query.is_unreserved s = true ->
  Query.fullUrl o = allocation_url o +:+ "?subdomain=" +:+ s.
Proof.
  intros Hs Hne Hplain.
  unfold Query.fullUrl, Query.queryParams, JsString.truthy, JsString.template.
  rewrite Hs, (eqb_nonempty s Hne). cbn [negb].
  rewrite (form_encode_unreserved s Hplain). reflexivity.
Qed.

Lemma subdomain_plain_witness :
  Query.fullUrl (constructor_opts
                   (mkTunnelOptions 3000 None None None None (Some "my-app.v2") None None None))
  = "https://abbreviated.ai/api/v1/ci-tunnels/?subdomain=my-app.v2".
Proof.
  refine (subdomain_plain
            (constructor_opts
               (mkTunnelOptions 3000 None None None None (Some "my-app.v2") None None None))
            "my-app.v2" eq_refl _ eq_refl).
  discriminate.
Defined.

Example subdomain_escaped :
  Query.queryParams (constructor_opts
                   (mkTunnelOptions 3000 None None None None (Some "a b&c=d#e") None None None))
  = "subdomain=a+b%26c%3Dd%23e".
Proof. reflexivity. Qed.

Lemma all_chars_forallb p s : all_chars p s = forallb p (list_ascii_of_string s).
Proof. induction s as [|c s IH]; [reflexivity|]. cbn. rewrite IH. reflexivity. Qed.

Lemma collapse_line_chars s : forall b,
  all_chars line_char (JsString.collapse_from b s) = true.
Proof.
  induction s as [|c s IH]; intros b; [reflexivity|]. cbn [JsString.collapse_from].
  destruct (JsString.is_space c) eqn:E.
  - destruct b; [apply IH|]. cbn [all_chars]. rewrite IH. reflexivity.
  - cbn [all_chars]. unfold line_char at 1. rewrite E, IH. reflexivity.
Qed.

Lemma drop_space_suffix l : exists a, l = a ++ JsString.drop_space l.
Proof.
  induction l as [|c l [a IH]]; [exists []; reflexivity|]. cbn.
  destruct (JsString.is_space c).
  - exists (c :: a). cbn. f_equal. exact IH.
  - exists []. reflexivity.
Qed.

Lemma drop_space_head l :
  match JsString.drop_space l with
  | [] => True
  | c :: _ => JsString.is_space c = false
  end.
Proof.
  induction l as [|c l IH]; [exact I|]. cbn.
  destruct (JsString.is_space c) eqn:E; [exact IH|exact E].
Qed.

Lemma forallb_drop_space p l :
  forallb p l = true -> forallb p (JsString.drop_space l) = true.
Proof.
  intros H. destruct (drop_space_suffix l) as [a Ha]. rewrite Ha in H.
  rewrite forallb_app in H. apply andb_true_iff in H. tauto.
Qed.

Lemma forallb_rev_true {A} (p : A -> bool) l :
  forallb p l = true -> forallb p (rev l) = true.
Proof.
  rewrite !forallb_forall. intros H x Hx. apply H, in_rev, Hx.
Qed.

Lemma trim_line_chars p s :
  all_chars p s = true -> all_chars p (JsString.trim s) = true.
Proof.
  rewrite !all_chars_forallb. unfold JsString.trim.
  rewrite list_ascii_of_string_of_list_ascii. intros H.
  apply forallb_rev_true, forallb_drop_space, forallb_rev_true, forallb_drop_space, H.
Qed.

Lemma trim_no_leading_space s : no_leading_space (JsString.trim s) = true.
Proof.
  unfold JsString.trim.
  set (l1 := JsString.drop_space (list_ascii_of_string s)).
  pose proof (drop_space_head (list_ascii_of_string s)) as Hhead. fold l1 in Hhead.
  destruct (drop_space_suffix (rev l1)) as [a Ha].
  set (b := JsString.drop_space (rev l1)) in *.
  assert (l1 = rev b ++ rev a) as Hl1.
  { rewrite <- rev_app_distr, <- Ha, rev_involutive. reflexivity. }
  destruct (rev b) as [|c r] eqn:Eb; [reflexivity|].
  rewrite Hl1 in Hhead. cbn in Hhead |- *. rewrite Hhead. reflexivity.
Qed.

Lemma slice0_chars p n : forall s,
  all_chars p s = true -> all_chars p (JsString.slice0 n s) = true.
Proof.
  induction n as [|n IH]; intros s H; destruct s as [|c s]; try reflexivity.
  cbn in H |- *. apply andb_true_iff in H as [Hc Hs]. rewrite Hc, (IH s Hs). reflexivity.
Qed.

Lemma slice0_no_leading_space n s :
  no_leading_space s = true -> no_leading_space (JsString.slice0 n s) = true.
Proof. destruct n, s; cbn; auto. Qed.

Lemma length_append a b : String.length (a +:+ b) = String.length a + String.length b.
Proof.
  induction a as [|c a IH]; [reflexivity|].
  change (String c a +:+ b) with (String c (a +:+ b)).
  cbn [String.length]. rewrite IH. reflexivity.
Qed.

(** X4. For a status outside the named classes the excerpt of the body
    in the reason is one line: its only white space is the space, it
    does not begin with white space, and the whole reason is at most 122
    characters longer than [HTTP status]. *)
Theorem generic_reason_one_line status data :
  classify status = GenericHttp ->
  let excerpt := JsString.slice0 120 (plain_body data) in
  all_chars line_char excerpt = true /\
  no_leading_space excerpt = true /\
  String.length (reason status data)
  <= String.length ("HTTP " +:+ JsString.of_nat status) + 122.
Proof.
  intros Hclass. cbv zeta. split_and!.
  - apply slice0_chars, trim_line_chars, collapse_line_chars.
  - apply slice0_no_leading_space, trim_no_leading_space.
  - unfold classify in Hclass. unfold reason.
    case_bool_decide as H1; [discriminate|].
    case_bool_decide as H2; [discriminate|].
    case_bool_decide as H3; [discriminate|].
    assert (Nat.eqb status 503 || Nat.eqb status 502 || Nat.eqb status 504 = false) as ->.
    { rewrite !orb_false_iff, !Nat.eqb_neq.
      split_and!; intros ->; apply H1; repeat constructor. }
    assert (Nat.eqb status 401 || Nat.eqb status 403 = false) as ->.
    { rewrite !orb_false_iff, !Nat.eqb_neq.
      split_and!; intros ->; apply H2; repeat constructor. }
    assert (Nat.eqb status 429 = false) as -> by (apply Nat.eqb_neq; exact H3).
    fold (plain_body data).
    pose proof (TunnelProofs.slice0_length 120 (plain_body data)) as Hlen.
    destruct (String.eqb (plain_body data) ""); cbn [negb].
    + repeat rewrite length_append. cbn [String.length]. lia.
    + repeat rewrite length_append. cbn [String.length]. lia.
Qed.

Lemma generic_reason_one_line_witness :
  all_chars line_char (JsString.slice0 120 (plain_body "<h1>Internal   error</h1>")) = true /\
  String.length (reason 500 "<h1>Internal   error</h1>") <= 130.
Proof.
  destruct (generic_reason_one_line 500 "<h1>Internal   error</h1>" eq_refl)
    as (H1 & _ & H3).
  split; [exact H1|exact H3].
Defined.

End EndpointProofs.

(* ===================================================================== *)
(** ** The forwarder and the bridge: whole exchanges *)
(* ===================================================================== *)

Module BridgeProofs.

Import Http2Handler HandlerNotions BridgeNotions HandlerProofs.

Lemma copy_loop_values {V W} (keep : string -> bool) (f : V -> W)
    (hs : gmap string V) (k : string) :
  map_fold (fun key value (acc : gmap string W) =>
              if keep key then <[key := f value]> acc else acc) ∅ hs !! k
  = if keep k then f <$> hs !! k else None.
Proof.
  apply (map_fold_weak_ind
           (fun (r : gmap string W) (m : gmap string V) =>
              r !! k = if keep k then f <$> m !! k else None)).
  - rewrite !lookup_empty. destruct (keep k); reflexivity.
  - intros i x m r Hi IH.
    destruct (decide (i = k)) as [->|Hne].
    + destruct (keep k).
      * rewrite !lookup_insert_eq. reflexivity.
      * exact IH.
    + rewrite (lookup_insert_ne m) by done.
      destruct (keep i).
      * rewrite lookup_insert_ne by done. exact IH.
      * exact IH.
Qed.

Lemma wsHeaders_lookup hs k :
  wsHeaders hs !! k =
    (if JsString.startsWith k ":" || is_hop_by_hop k
        || String.eqb (JsString.toLowerCase k) "host"
        || String.eqb (JsString.toLowerCase k) "upgrade"
     then None else value_to_string <$> hs !! k).
Proof.
  unfold wsHeaders.
  rewrite (copy_loop_values
             (fun key => negb (JsString.startsWith key ":")
                         && negb (has HOP_BY_HOP_HEADERS (JsString.toLowerCase key))
                         && negb (String.eqb (JsString.toLowerCase key) "host")
                         && negb (String.eqb (JsString.toLowerCase key) "upgrade"))
             value_to_string).
  rewrite has_hop_by_hop.
  destruct (JsString.startsWith k ":"), (is_hop_by_hop k),
    (String.eqb (JsString.toLowerCase k) "host"),
    (String.eqb (JsString.toLowerCase k) "upgrade"); reflexivity.
Qed.

(** X15. The headers of the handshake with the local WebSocket are those
    of the virtual request that are no pseudo-header, not hop-by-hop
    and, up to case, neither [host] nor [upgrade], each with its value
    turned into a string; every one of them would also be forwarded by
    the HTTP forwarder. *)
Theorem bridge_headers hs k :
  wsHeaders hs !! k =
    (if JsString.startsWith k ":" || is_hop_by_hop k
        || String.eqb (JsString.toLowerCase k) "host"
        || String.eqb (JsString.toLowerCase k) "upgrade"
     then None else value_to_string <$> hs !! k)
  /\ (is_Some (wsHeaders hs !! k) -> is_Some (headersToForward hs !! k)).
Proof.
  split; [apply wsHeaders_lookup|].
  rewrite wsHeaders_lookup. intros Hsome.
  destruct (JsString.startsWith k ":") eqn:E1; [destruct Hsome; discriminate|].
  destruct (is_hop_by_hop k) eqn:E2; [destruct Hsome; discriminate|].
  destruct (String.eqb (JsString.toLowerCase k) "host") eqn:E3;
    [destruct Hsome; discriminate|].
  destruct (String.eqb (JsString.toLowerCase k) "upgrade") eqn:E4;
    [destruct Hsome; discriminate|].
  cbn in Hsome.
  assert (k <> "host") as Hh by (intros ->; discriminate).
  assert (k <> "upgrade") as Hu by (intros ->; discriminate).
  unfold headersToForward.
  rewrite lookup_delete_ne, lookup_delete_ne by done.
  rewrite (copy_loop_lookup
             (fun key => negb (JsString.startsWith key ":")
                         && negb (has HOP_BY_HOP_HEADERS (JsString.toLowerCase key)))).
  rewrite has_hop_by_hop, E1, E2. cbn.
  destruct (hs !! k); [eauto|destruct Hsome; discriminate].
Qed.

Lemma bridge_run_app es1 : forall es2 b,
  bridge_run (es1 ++ es2) b =
  match bridge_run es1 b with
  | inr b' => bridge_run es2 b'
  | inl err => inl err
  end.
Proof.
  induction es1 as [|e es1 IH]; intros es2 b; [reflexivity|].
  cbn [app bridge_run]. destruct (bridge_step e b); [reflexivity|apply IH].
Qed.

Lemma bridge_waiting es : forall b,
  bridged b = false ->
  forallb virtual_event es = true ->
  exists held' end',
    bridge_run es b = inr (mkBridge (localWs b) (bres b) false held' end' (blog b)).
Proof.
  induction es as [|e es IH]; intros b Hb Hes.
  - exists (held b), (held_end b). destruct b. cbn in Hb |- *. subst. reflexivity.
  - cbn [forallb] in Hes. apply andb_true_iff in Hes as [He Hes].
    destruct e; try discriminate; cbn [bridge_run bridge_step]; rewrite Hb.
    + destruct (IH (mkBridge (localWs b) (bres b) false (held b ++ [chunk]) (held_end b)
                     (blog b)) eq_refl Hes) as (h & e & ->).
      exists h, e. reflexivity.
    + destruct (IH (mkBridge (localWs b) (bres b) false (held b) true (blog b)) eq_refl Hes)
        as (h & e & ->).
      exists h, e. reflexivity.
Qed.

(** X16. When the local WebSocket fails before it opens, the exchange is
    answered with 502, a plain-text header and the text of the failure,
    and is ended; whatever the virtual stream delivered meanwhile never
    reaches the local socket. *)
Theorem bridge_failed_open es message :
  forallb virtual_event es = true ->
  exists b,
    bridge_run (es ++ [LocalFailed message]) new_bridge = inr b /\
    localWs b = mkLocalWs CLOSED [] 0 /\
    bres b = mkResponse true 502 TEXT_PLAIN [ws_failure message] true false /\
    bridged b = false /\
    blog b = ["Local WebSocket error: " +:+ message].
Proof.
  intros Hes. rewrite bridge_run_app.
  destruct (bridge_waiting es new_bridge eq_refl Hes) as (h & e & ->).
  eexists. split; [reflexivity|]. cbn. done.
Qed.

Lemma bridge_failed_open_witness :
  exists b,
    bridge_run [VirtualData "ping"; VirtualEnd; LocalFailed "ECONNREFUSED"] new_bridge = inr b /\
    sent (localWs b) = [] /\ statusCode (bres b) = 502.
Proof.
  destruct (bridge_failed_open [VirtualData "ping"; VirtualEnd] "ECONNREFUSED" eq_refl)
    as (b & H1 & H2 & H3 & _).
  exists b. split; [exact H1|]. rewrite H2, H3. split; reflexivity.
Defined.

Lemma bridge_relay_general es : forall b,
  bridged b = true ->
  closed (bres b) = false ->
  Forall bridge_event es ->
  exists b',
    bridge_run es b = inr b' /\
    body (bres b') = body (bres b) ++ (if ended (bres b) then [] else relayed es) /\
    ended (bres b') = ended (bres b) || existsb is_local_closed es /\
    statusCode (bres b') = statusCode (bres b) /\
    headers (bres b') = headers (bres b).
Proof.
  induction es as [|e es IH]; intros b Hb Hc Hes.
  - exists b. cbn. rewrite orb_false_r. destruct (ended (bres b)); rewrite app_nil_r; done.
  - inversion Hes as [|? ? He Hes']; subst.
    destruct b as [lw r br h he lg]. cbn in Hb, Hc. subst br.
    destruct r as [hsent st hs bd en cl]. cbn in Hc. subst cl.
    destruct e; cbn in He; try contradiction;
      cbn [bridge_run bridge_step bridged].
    + (* LocalState *)
      destruct (IH (set_readyState s (mkBridge lw (mkResponse hsent st hs bd en false) true h he lg)))
        as (b' & Hrun & H1 & H2 & H3 & H4); [reflexivity|reflexivity|exact Hes'|].
      exists b'. split; [exact Hrun|]. cbn in *. done.
    + (* LocalMessage *)
      destruct en.
      * destruct (IH (on_ws_message data (mkBridge lw (mkResponse hsent st hs bd true false) true h he lg)))
          as (b' & Hrun & H1 & H2 & H3 & H4); [reflexivity|reflexivity|exact Hes'|].
        exists b'. split; [exact Hrun|]. cbn in *. done.
      * destruct (IH (on_ws_message data (mkBridge lw (mkResponse hsent st hs bd false false) true h he lg)))
          as (b' & Hrun & H1 & H2 & H3 & H4); [reflexivity|reflexivity|exact Hes'|].
        exists b'. split; [exact Hrun|]. cbn in *. rewrite H1, <- app_assoc. done.
    + (* LocalClosed *)
      destruct en.
      * destruct (IH (on_ws_close (set_readyState CLOSED (mkBridge lw (mkResponse hsent st hs bd true false) true h he lg))))
          as (b' & Hrun & H1 & H2 & H3 & H4); [reflexivity|reflexivity|exact Hes'|].
        exists b'. split; [exact Hrun|]. cbn in *. done.
      * destruct (IH (on_ws_close (set_readyState CLOSED (mkBridge lw (mkResponse hsent st hs bd false false) true h he lg))))
          as (b' & Hrun & H1 & H2 & H3 & H4); [reflexivity|reflexivity|exact Hes'|].
        exists b'. split; [exact Hrun|]. cbn in *. rewrite H1, app_nil_r. done.
    + (* VirtualData *)
      assert (bres (on_req_data chunk (mkBridge lw (mkResponse hsent st hs bd en false) true h he lg))
              = mkResponse hsent st hs bd en false
              /\ bridged (on_req_data chunk (mkBridge lw (mkResponse hsent st hs bd en false) true h he lg)) = true)
        as [Hr Hbr] by (unfold on_req_data; case_bool_decide; done).
      destruct (IH _ Hbr) as (b' & Hrun & H1 & H2 & H3 & H4);
        [rewrite Hr; reflexivity|exact Hes'|].
      exists b'. split; [exact Hrun|]. rewrite Hr in *. cbn in *. done.
    + (* VirtualEnd *)
      assert (bres (on_req_end (mkBridge lw (mkResponse hsent st hs bd en false) true h he lg))
              = mkResponse hsent st hs bd en false
              /\ bridged (on_req_end (mkBridge lw (mkResponse hsent st hs bd en false) true h he lg)) = true)
        as [Hr Hbr] by (unfold on_req_end; case_bool_decide; done).
      destruct (IH _ Hbr) as (b' & Hrun & H1 & H2 & H3 & H4);
        [rewrite Hr; reflexivity|exact Hes'|].
      exists b'. split; [exact Hrun|]. rewrite Hr in *. cbn in *. done.
Qed.

(** X17. On an established bridge whose response is not finished, the
    messages of the local socket are written onto the virtual response
    in their order until the local socket closes, which ends the
    response; the status and the headers stay as they were. *)
Theorem bridge_relays_messages b es :
  bridged b = true ->
  finished (bres b) = false ->
  Forall bridge_event es ->
  exists b',
    bridge_run es b = inr b' /\
    body (bres b') = body (bres b) ++ relayed es /\
    ended (bres b') = existsb is_local_closed es /\
    statusCode (bres b') = statusCode (bres b) /\
    headers (bres b') = headers (bres b).
Proof.
  intros Hb Hf Hes. unfold finished in Hf. apply orb_false_iff in Hf as [He Hc].
  destruct (bridge_relay_general es b Hb Hc Hes) as (b' & Hrun & H1 & H2 & H3 & H4).
  exists b'. rewrite He in H1, H2. done.
Qed.

Lemma bridge_relays_messages_witness :
  exists b',
    bridge_run [LocalMessage "a"; VirtualData "x"; LocalMessage "b"; LocalClosed;
                LocalMessage "late"] Samples.open_bridge = inr b' /\
    body (bres b') = ["a"; "b"] /\ ended (bres b') = true.
Proof.
  destruct (bridge_relays_messages Samples.open_bridge
              [LocalMessage "a"; VirtualData "x"; LocalMessage "b"; LocalClosed;
               LocalMessage "late"] eq_refl eq_refl)
    as (b' & H1 & H2 & H3 & _).
  - repeat constructor.
  - exists b'. split; [exact H1|]. split; [exact H2|exact H3].
Defined.

Lemma end_finished chunk r : finished r = true -> end_ chunk r = r.
Proof. unfold finished, end_. intros ->. reflexivity. Qed.

Lemma local_error_result message x :
  on_local_request_error message x =
  inr (mkExchange
         (end_ (Some (connect_failure message))
            (if headersSent (res x) then res x
             else mkResponse true 502 TEXT_PLAIN (body (res x)) (ended (res x)) (closed (res x))))
         (console x ++ ["Local request error: " +:+ message])).
Proof.
  unfold on_local_request_error, writeHead. destruct (headersSent (res x)); reflexivity.
Qed.

Lemma pipeline_error_result message x :
  on_request_pipeline_error message x =
  inr (mkExchange
         (end_ (Some BAD_GATEWAY)
            (if headersSent (res x) then res x
             else mkResponse true 502 TEXT_PLAIN (body (res x)) (ended (res x)) (closed (res x))))
         (console x ++ ["Request pipeline error: " +:+ message])).
Proof.
  unfold on_request_pipeline_error, writeHead. destruct (headersSent (res x)); reflexivity.
Qed.

Lemma answered_is_final text r :
  let r' := end_ (Some text)
              (if headersSent r then r
               else mkResponse true 502 TEXT_PLAIN (body r) (ended r) (closed r)) in
  headersSent r' = true /\ finished r' = true.
Proof.
  destruct r as [hsent st hs bd en cl]. unfold end_, write, finished. cbn.
  destruct hsent, en, cl; cbn; done.
Qed.

(** X18. When both failure handlers of an exchange run, in either order,
    neither throws, the second leaves the response as the first one left
    it, and both log their line. *)
Theorem failure_answered_once m1 m2 x :
  exists x1,
    on_local_request_error m1 x = inr x1 /\
    (exists x2, on_request_pipeline_error m2 x1 = inr x2 /\ res x2 = res x1 /\
                console x2 = console x ++ ["Local request error: " +:+ m1;
                                           "Request pipeline error: " +:+ m2]) /\
  exists y1,
    on_request_pipeline_error m2 x = inr y1 /\
    (exists y2, on_local_request_error m1 y1 = inr y2 /\ res y2 = res y1 /\
                console y2 = console x ++ ["Request pipeline error: " +:+ m2;
                                           "Local request error: " +:+ m1]).
Proof.
  rewrite local_error_result. eexists. split; [reflexivity|]. split.
  - rewrite pipeline_error_result. eexists. split; [reflexivity|]. cbn [res console].
    destruct (answered_is_final (connect_failure m1) (res x)) as [Hs Hf]. cbv zeta in Hs, Hf.
    rewrite Hs, (end_finished _ _ Hf), <- app_assoc. done.
  - rewrite pipeline_error_result. eexists. split; [reflexivity|].
    rewrite local_error_result. eexists. split; [reflexivity|]. cbn [res console].
    destruct (answered_is_final BAD_GATEWAY (res x)) as [Hs Hf]. cbv zeta in Hs, Hf.
    rewrite Hs, (end_finished _ _ Hf), <- app_assoc. done.
Qed.

Lemma relay_chunks chunks : forall x,
  finished (res x) = false ->
  foldl (fun acc chunk => on_response_data chunk acc) x chunks
  = mkExchange
      (mkResponse (if chunks is [] then headersSent (res x) else true)
         (statusCode (res x)) (headers (res x)) (body (res x) ++ chunks) false false)
      (console x).
Proof.
  induction chunks as [|c chunks IH]; intros x Hf.
  - destruct x as [[hsent st hs bd en cl] lg]. unfold finished in Hf. cbn in Hf |- *.
    apply orb_false_iff in Hf as [-> ->]. rewrite app_nil_r. reflexivity.
  - cbn [foldl]. rewrite IH.
    + destruct x as [[hsent st hs bd en cl] lg]. unfold finished in Hf. cbn in Hf.
      apply orb_false_iff in Hf as [-> ->]. cbn. rewrite <- app_assoc.
      destruct chunks; reflexivity.
    + destruct x as [[hsent st hs bd en cl] lg]. unfold finished in Hf. cbn in Hf.
      apply orb_false_iff in Hf as [-> ->]. reflexivity.
Qed.

(** X19. On a fresh response, the local response is relayed in full: the
    status (502 when it is missing or 0), the filtered headers, the
    chunks in their order, and the end; nothing is logged, and an error
    of the local request that comes afterwards changes nothing of the
    response. *)
Theorem relayed_exchange status hs chunks x :
  headersSent (res x) = false ->
  finished (res x) = false ->
  exists x1,
    on_local_response status hs x = inr x1 /\
    let x2 := on_response_end (foldl (fun acc chunk => on_response_data chunk acc) x1 chunks) in
    res x2 = mkResponse true (status_or_502 status) (responseHeaders hs)
               (body (res x) ++ chunks) true false /\
    console x2 = console x /\
    forall message, exists x3,
      on_local_request_error message x2 = inr x3 /\ res x3 = res x2.
Proof.
  intros Hs Hf. destruct x as [[hsent st h0 bd en cl] lg]. unfold finished in Hf.
  cbn in Hs, Hf. subst hsent. apply orb_false_iff in Hf as [-> ->].
  eexists. split; [reflexivity|]. cbv zeta.
  rewrite relay_chunks by reflexivity. cbn.
  split; [destruct chunks; reflexivity|]. split; [reflexivity|].
  intros message. destruct chunks; eexists; (split; reflexivity).
Qed.

Lemma relayed_exchange_witness :
  exists x1,
    on_local_response (Some 404) ∅ (mkExchange fresh_response []) = inr x1 /\
    res (on_response_end (foldl (fun acc chunk => on_response_data chunk acc) x1
                            ["not "; "found"]))
    = mkResponse true 404 ∅ ["not "; "found"] true false.
Proof.
  destruct (relayed_exchange (Some 404) ∅ ["not "; "found"] (mkExchange fresh_response [])
              eq_refl eq_refl) as (x1 & H1 & H2 & _).
  exists x1. split; [exact H1|exact H2].
Defined.

(** X20. A virtual request goes to the WebSocket bridge exactly when its
    [upgrade] header is the string [websocket]; the [request] event
    carries the method and the path, [unknown] where one is missing; on
    either route the local side never receives an [upgrade] header. *)
Theorem upgrade_routing o req :
  (snd (on_request req) = ToWebSocketBridge
   <-> req_headers req !! "upgrade" = Some (HStr "websocket")) /\
  fst (on_request req) = (default "unknown" (method req), default "unknown" (url req)) /\
  lr_headers (handleHttpRequest o req) !! "upgrade" = None /\
  wsHeaders (req_headers req) !! "upgrade" = None.
Proof.
  split_and!.
  - unfold on_request. cbn [snd].
    destruct (req_headers req !! "upgrade") as [[s|l]|] eqn:E.
    + destruct (String.eqb_spec s "websocket") as [->|Hne].
      * done.
      * split; [|congruence].
        intros H. exfalso.
        destruct s as [|c1 s]; [discriminate|].
        revert H.
        repeat (match goal with
                | |- context [match ?s with EmptyString => _ | String _ _ => _ end] =>
                    destruct s
                | |- context [match ?c with Ascii _ _ _ _ _ _ _ _ => _ end] =>
                    destruct c as [[] [] [] [] [] [] [] []]
                end; try discriminate).
        all: try (intros _; apply Hne; reflexivity).
    + split; discriminate.
    + split; discriminate.
  - reflexivity.
  - cbn. unfold headersToForward. apply lookup_delete_eq.
  - rewrite wsHeaders_lookup. reflexivity.
Qed.

End BridgeProofs.

(* ===================================================================== *)
(** ** The command line *)
(* ===================================================================== *)

Module CliProofs.

Import Tunnel TunnelNotions TextNotions SessionNotions TunnelProofs.
Import ControllerProofs EndpointProofs.

Lemma append_assoc a b c : (a +:+ b) +:+ c = a +:+ (b +:+ c).
Proof.
  induction a as [|x a IH]; [reflexivity|].
  change (String x ((a +:+ b) +:+ c) = String x (a +:+ (b +:+ c))).
  rewrite IH. reflexivity.
Qed.

Lemma resolved_remote o out info :
  getTunnelInfo o out = inr info ->
  remoteHost info = serverHost o /\ remotePort info = serverPort o.
Proof.
  intros H. destruct out as [statusCode data| |code message].
  - cbn [getTunnelInfo] in H. destruct (negb _); [discriminate|].
    unfold parse_response in H.
    destruct (Json.parse data) as [response|]; [|discriminate]. cbn in H.
    destruct (Json.get_prop response "url") as [v|]; [|discriminate]. cbn in H.
    destruct (Url.parse (Json.to_string_opt v)) as [u|]; [|discriminate]. cbn in H.
    destruct (Json.get_prop response "tunnel_id") as [tid|]; [|discriminate].
    cbn in H. inversion H. done.
  - discriminate.
  - cbn [getTunnelInfo] in H.
    repeat (case_bool_decide; [discriminate|]).
    destruct (_ || _); discriminate.
Qed.

(** X21. With [--local] the command allocates at http://localhost:8081
    and connects to ws://localhost:9000.  Without it, allocation and
    channels go to the same host and port, secure (https and wss)
    exactly when the server port is 443. *)
Theorem cli_endpoints c out ti :
  getTunnelInfo (constructor_opts (Cli.tunnel_options c)) out = inr ti ->
  let o := constructor_opts (Cli.tunnel_options c) in
  if Cli.local c then
    allocation_url o = "http://localhost:8081/api/v1/ci-tunnels/" /\
    connect_url ti = "ws://localhost:9000/connect?tunnel_id=" +:+ Json.to_string_opt (id ti)
  else
    let secure := N.eqb (Cli.serverPort c) 443 in
    let authority :=
      Cli.serverHost c +:+
      (if secure || N.eqb (Cli.serverPort c) 80 then ""
       else ":" +:+ JsString.of_N (Cli.serverPort c)) in
    allocation_url o
    = (if secure then "https" else "http") +:+ "://" +:+ authority +:+ "/api/v1/ci-tunnels/" /\
    connect_url ti
    = (if secure then "wss" else "ws") +:+ "://" +:+ authority
      +:+ "/connect?tunnel_id=" +:+ Json.to_string_opt (id ti).
Proof.
  intros H. destruct (resolved_remote _ _ _ H) as [Hh Hp]. cbv zeta.
  unfold connect_url. rewrite Hh, Hp.
  unfold allocation_url, scheme, portSuffix, constructor_opts, Cli.tunnel_options,
    Cli.effective_serverHost, Cli.effective_serverPort.
  cbn [serverHost serverPort apiPort o_serverHost o_serverPort o_apiPort default].
  unfold Datatypes.id.
  destruct (Cli.local c).
  - split; reflexivity.
  - rewrite !append_assoc. split; reflexivity.
Qed.

Lemma cli_endpoints_witness :
  allocation_url (constructor_opts (Cli.tunnel_options cli_sample))
  = "https://abbreviated.ai/api/v1/ci-tunnels/" /\
  connect_url (mkTunnelInfo (Some (Json.JStr "abc")) "https://abc.abbreviated.ai/"
                 "abbreviated.ai" 443)
  = "wss://abbreviated.ai/connect?tunnel_id=abc".
Proof.
  exact (cli_endpoints cli_sample (AllocResponse (Some 200) Samples.tunnel_body)
           (mkTunnelInfo (Some (Json.JStr "abc")) "https://abc.abbreviated.ai/"
              "abbreviated.ai" 443) eq_refl).
Defined.

Lemma action_failure c env e :
  createTunnel (Cli.tunnel_options c) env
  = (inl e, add_event (EvError e) (new_Tunnel (Cli.tunnel_options c))) ->
  Cli.action c env
  = (Cli.mkProcess (Cli.starting_lines c ++ Cli.hint_lines c (Cli.hint e))
       [Cli.nl +:+ "Failed to start tunnel: " +:+ e] (Some 1),
     add_event (EvError e) (new_Tunnel (Cli.tunnel_options c))).
Proof. intros H. unfold Cli.action. rewrite H. reflexivity. Qed.

(** X22. When the probe of the local server times out or is refused, the
    command prints the failure on the error output, advises to start the
    local server on the given port, and exits with code 1 without
    opening any channel. *)
Theorem cli_local_server_down c env :
  probe env = ProbeTimeout \/
  (exists message, probe env = ProbeError (Some "ECONNREFUSED") message) ->
  let e := "Local server at "
           +:+ (Cli.localHost c +:+ ":" +:+ JsString.of_N (Cli.port c))
           +:+ match probe env with
               | ProbeTimeout => " is not responding (timeout)"
               | _ => " is not running (connection refused)"
               end in
  Cli.action c env
  = (Cli.mkProcess
       (Cli.starting_lines c ++
        [Cli.nl +:+ "Make sure your local server is running on port "
         +:+ JsString.of_N (Cli.port c)])
       [Cli.nl +:+ "Failed to start tunnel: " +:+ e] (Some 1),
     add_event (EvError e) (new_Tunnel (Cli.tunnel_options c))).
Proof.
  intros Hp e.
  assert (checkLocalServer (opts (this (new_Tunnel (Cli.tunnel_options c)))) (probe env)
          = inl e) as Hcheck.
  { subst e. destruct Hp as [->|[message ->]]; reflexivity. }
  rewrite (action_failure c env e).
  - assert (Cli.hint e = Some Cli.LocalServerHint) as ->; [|reflexivity].
    unfold Cli.hint.
    change e with ("Local server" +:+ (" at "
                     +:+ (Cli.localHost c +:+ ":" +:+ JsString.of_N (Cli.port c))
                     +:+ match probe env with
                         | ProbeTimeout => " is not responding (timeout)"
                         | _ => " is not running (connection refused)"
                         end)).
    rewrite includes_here. reflexivity.
  - unfold createTunnel. apply open_early_failure. left. exact Hcheck.
Qed.

Lemma cli_local_server_down_witness :
  Cli.exit_code (fst (Cli.action cli_sample env_refused)) = Some 1 /\
  Cli.err_lines (fst (Cli.action cli_sample env_refused))
  = [Cli.nl +:+ "Failed to start tunnel: Local server at localhost:3000 is not running (connection refused)"].
Proof.
  pose proof (cli_local_server_down cli_sample env_refused
                (or_intror (ex_intro _ _ eq_refl))) as H.
  cbv zeta in H. rewrite H. split; reflexivity.
Defined.

(** X23. When the allocation is answered with 502, 503 or 504 the
    command advises that the service is down; with 401, 403 or 429 it
    prints no advice at all.  In each case the failure goes to the error
    output and the exit code is 1. *)
Theorem cli_allocation_rejected c env status data :
  probe env = ProbeResponded ->
  allocation env = AllocResponse (Some status) data ->
  classify status <> GenericHttp ->
  let e := failure_message (reason status data) in
  Cli.action c env
  = (Cli.mkProcess
       (Cli.starting_lines c ++
        match classify status with
        | ServiceUnavailable =>
            [Cli.nl +:+ "The tunnel service appears to be down. Try again in a few minutes."]
        | _ => []
        end)
       [Cli.nl +:+ "Failed to start tunnel: " +:+ e] (Some 1),
     add_event (EvError e) (new_Tunnel (Cli.tunnel_options c))).
Proof.
  intros Hp Ha Hc e.
  assert (status ∈ [502; 503; 504; 401; 403; 429]) as Hin.
  { unfold classify in Hc. repeat case_bool_decide; try congruence.
    - set_unfold. tauto.
    - set_unfold. tauto.
    - set_unfold. tauto. }
  rewrite (action_failure c env e).
  - f_equal. f_equal. f_equal. subst e.
    set_unfold in Hin.
    destruct Hin as [->|[->|[->|[->|[->|[->|[]]]]]]]; reflexivity.
  - unfold createTunnel. apply open_early_failure. right. rewrite Hp, Ha.
    split; [reflexivity|]. subst e.
    set_unfold in Hin.
    destruct Hin as [->|[->|[->|[->|[->|[->|[]]]]]]]; reflexivity.
Qed.

Lemma cli_allocation_rejected_witness :
  Cli.out_lines
    (fst (Cli.action cli_sample
            (mkEnv ProbeResponded (AllocResponse (Some 401) "denied") 4
               (fun _ => HandshakeOpen))))
  = Cli.starting_lines cli_sample.
Proof.
  pose proof (cli_allocation_rejected cli_sample
                (mkEnv ProbeResponded (AllocResponse (Some 401) "denied") 4
                   (fun _ => HandshakeOpen)) 401 "denied" eq_refl eq_refl) as H.
  cbv zeta in H. rewrite H.
  - reflexivity.
  - discriminate.
Defined.

End CliProofs.

(* ===================================================================== *)
(** ** The CI wrapper *)
(* ===================================================================== *)

Module ActionProofs.

Import Tunnel TunnelNotions TextNotions SessionNotions TunnelProofs.
Import ControllerProofs EndpointProofs CliProofs.

Lemma leading_digits_uint d : forall acc count junk,
  stops Action.is_digit junk = true ->
  Action.leading_digits acc count (NilEmpty.string_of_uint d +:+ junk)
  = (digits_value acc d, count + String.length (NilEmpty.string_of_uint d)).
Proof.
  induction d; intros acc count junk Hj;
    try (cbn [NilEmpty.string_of_uint digits_value String.length];
         match goal with
         | |- context [String ?c ?s +:+ junk] =>
             change (String c s +:+ junk) with (String c (s +:+ junk))
         end;
         cbn [Action.leading_digits]; 
         change (Action.is_digit _) with true; cbv iota;
         rewrite IHd by exact Hj; apply f_equal2; [reflexivity | lia]).
  cbn [NilEmpty.string_of_uint digits_value String.length].
  change ("" +:+ junk) with junk. rewrite Nat.add_0_r.
  destruct junk as [|c junk]; [reflexivity|]. cbn [stops] in Hj.
  cbn [Action.leading_digits]. destruct (Action.is_digit c); [discriminate|reflexivity].
Qed.

Lemma parseInt_digit c r :
  Action.is_digit c = true ->
  Action.parseInt (String c r) =
  match Action.leading_digits 0 0 (String c r) with
  | (_, O) => None
  | (n, _) => Some (Z.of_N n)
  end.
Proof.
  destruct c as [[] [] [] [] [] [] [] []]; intros H; cbv in H; try discriminate H;
    reflexivity.
Qed.

Lemma of_N_head n : exists c r, JsString.of_N n = String c r /\ Action.is_digit c = true.
Proof.
  pose proof (of_N_nonempty n) as Hne. pose proof (of_N_digits n) as Hd.
  destruct (JsString.of_N n) as [|c r]; [congruence|].
  exists c, r. split; [reflexivity|]. cbn [all_chars] in Hd.
  apply andb_true_iff in Hd as [Hc _]. exact Hc.
Qed.

Lemma parseInt_of_N n junk :
  stops Action.is_digit junk = true ->
  Action.parseInt (JsString.of_N n +:+ junk) = Some (Z.of_N n).
Proof.
  intros Hj. destruct (of_N_head n) as (c & r & E & Hc).
  pose proof (leading_digits_uint (N.to_uint n) 0 0 junk Hj) as Hl.
  fold (JsString.of_N n) in Hl. rewrite digits_value_of_uint, DecimalN.Unsigned.of_to in Hl.
  rewrite E in Hl |- *. change (String c r +:+ junk) with (String c (r +:+ junk)) in *.
  rewrite (parseInt_digit c _ Hc), Hl. reflexivity.
Qed.

(** X24. The wrapper checks only the leading digits of the port input:
    an input that is a number followed by anything that is no digit is
    refused exactly when the number is 0 or above 65535, with an error
    that quotes the input; otherwise the whole input, what follows the
    digits included, is handed to the command as its port. *)
Theorem port_validation i n junk :
  Action.in_port i = JsString.of_N n +:+ junk ->
  stops Action.is_digit junk = true ->
  match Action.build_args i with
  | inl e =>
      (n = 0 \/ 65535 < n)%N /\
      e = "Invalid port: " +:+ Action.in_port i +:+ ". Must be a number between 1 and 65535."
  | inr args =>
      (1 <= n <= 65535)%N /\
      take 3 args = ["start-local-tunnel"; "--port"; Action.in_port i]
  end.
Proof.
  intros Hp Hj. unfold Action.build_args, Action.invalid_port.
  rewrite Hp, (parseInt_of_N n junk Hj).
  destruct (Z.ltb_spec (Z.of_N n) 1) as [H1|H1]; cbn [orb].
  - split; [lia|reflexivity].
  - destruct (Z.ltb_spec 65535 (Z.of_N n)) as [H2|H2].
    + split; [lia|reflexivity].
    + split; [lia|reflexivity].
Qed.

Lemma port_validation_witness :
  Action.build_args inputs_sample
  = inr ["start-local-tunnel"; "--port"; "8080/tcp"; "--local-host"; "localhost";
         "--server-host"; "abbreviated.ai"; "--server-port"; "443"].
Proof.
  pose proof (port_validation inputs_sample 8080 "/tcp" eq_refl eq_refl) as H.
  destruct (Action.build_args inputs_sample) as [e|args] eqn:E.
  - destruct H as [[H|H] _]; [discriminate H|exfalso; revert H; apply N.le_ngt; discriminate].
  - rewrite <- E. reflexivity.
Defined.

Lemma wait_step_consistent e w : consistent w -> consistent (Action.wait_step e w).
Proof.
  intros (H1 & H2 & H3).
  destruct w as [so se r st t k]. cbn in H1, H2, H3.
  assert (r = false -> st = None) as Hnone.
  { intros ->. destruct st; [|reflexivity]. destruct H1 as [_ H1].
    discriminate H1; eauto. }
  destruct e as [|chunk|chunk|message|code signal]; cbn [Action.wait_step].
  - destruct t; [|split_and!; done].
    rewrite (H2 eq_refl) in *. rewrite (Hnone eq_refl).
    unfold Action.on_timeout, consistent. cbn. split_and!; try done.
    intros _. eexists. reflexivity.
  - unfold Action.on_stdout. cbn.
    destruct (Action.capture _ _); [destruct (Action.capture _ _)|].
    + destruct r; cbn.
      * split_and!; done.
      * rewrite (Hnone eq_refl). unfold consistent. cbn. split_and!; try done.
        intros Hk. destruct (H3 Hk) as [text Ht]. rewrite (Hnone eq_refl) in Ht.
        discriminate Ht.
    + split_and!; done.
    + split_and!; done.
  - unfold Action.on_stderr, consistent. cbn. done.
  - unfold Action.on_spawn_error. destruct r; cbn.
    + split_and!; done.
    + rewrite (Hnone eq_refl). unfold consistent. cbn. split_and!; try done.
      intros Hk. destruct (H3 Hk) as [text Ht]. rewrite (Hnone eq_refl) in Ht.
      discriminate Ht.
  - unfold Action.on_exit. destruct r; cbn.
    + split_and!; done.
    + rewrite (Hnone eq_refl). unfold consistent. cbn. split_and!; try done.
      intros Hk. destruct (H3 Hk) as [text Ht]. rewrite (Hnone eq_refl) in Ht.
      discriminate Ht.
Qed.

Lemma wait_run_consistent es : forall w, consistent w -> consistent (Action.wait_run es w).
Proof.
  induction es as [|e es IH]; intros w Hw; [exact Hw|].
  apply IH, wait_step_consistent, Hw.
Qed.

Lemma wait_step_settled e w r :
  consistent w -> Action.settled w = Some r -> Action.settled (Action.wait_step e w) = Some r.
Proof.
  intros (H1 & H2 & H3) Hs.
  assert (Action.resolved w = true) as Hr by (apply H1; rewrite Hs; eauto).
  destruct w as [so se rs st t k]. cbn in *. subst rs st.
  destruct e as [|chunk|chunk|message|code signal]; cbn.
  - destruct t; reflexivity.
  - unfold Action.on_stdout. cbn.
    destruct (Action.capture _ _); [destruct (Action.capture _ _)|]; reflexivity.
  - reflexivity.
  - reflexivity.
  - reflexivity.
Qed.

Lemma start_consistent : consistent Action.start_waiting.
Proof.
  unfold consistent. cbn. split_and!; try done.
Qed.

(** X25. At every moment of [waitForTunnelReady]: the flag [resolved] is
    set exactly when the promise is settled; while the timer runs the
    promise is not settled; and the child was killed only if the promise
    was rejected for the timeout. *)
Theorem waiting_consistent es :
  let w := Action.wait_run es Action.start_waiting in
  (Action.resolved w = true <-> is_Some (Action.settled w)) /\
  (Action.timer w = true -> Action.resolved w = false) /\
  (Action.killed w = true ->
   exists text,
     Action.settled w = Some (inl ("Tunnel failed to start within 30 seconds." +:+ text))).
Proof. exact (wait_run_consistent es _ start_consistent). Qed.

Lemma wait_run_app es1 es2 w :
  Action.wait_run (es1 ++ es2) w = Action.wait_run es2 (Action.wait_run es1 w).
Proof. unfold Action.wait_run. apply foldl_app. Qed.

Lemma wait_run_settled es : forall w r,
  consistent w -> Action.settled w = Some r ->
  Action.settled (Action.wait_run es w) = Some r /\
  Action.killed (Action.wait_run es w) = Action.killed w.
Proof.
  induction es as [|e es IH]; intros w r Hw Hs; [done|].
  change (Action.wait_run (e :: es) w) with (Action.wait_run es (Action.wait_step e w)).
  destruct (IH (Action.wait_step e w) r) as [G1 G2].
  - apply wait_step_consistent, Hw.
  - apply wait_step_settled; assumption.
  - split; [exact G1|]. rewrite G2.
    destruct Hw as (H1 & H2 & H3).
    assert (Action.resolved w = true) as Hr by (apply H1; rewrite Hs; eauto).
    destruct w as [so se rs st t k]. cbn in *. subst rs.
    destruct e as [|chunk|chunk|message|code signal]; cbn.
    + destruct t; [discriminate (H2 eq_refl)|reflexivity].
    + unfold Action.on_stdout. cbn.
      destruct (Action.capture _ _); [destruct (Action.capture _ _)|]; reflexivity.
    + reflexivity.
    + reflexivity.
    + reflexivity.
Qed.

(** X26. Once the promise of [waitForTunnelReady] is settled, no later
    output, error, exit or timeout changes its outcome, and none kills
    the child. *)
Theorem first_settlement_final es1 es2 r :
  Action.settled (Action.wait_run es1 Action.start_waiting) = Some r ->
  Action.settled (Action.wait_run (es1 ++ es2) Action.start_waiting) = Some r /\
  Action.killed (Action.wait_run (es1 ++ es2) Action.start_waiting)
  = Action.killed (Action.wait_run es1 Action.start_waiting).
Proof.
  intros H. rewrite wait_run_app.
  apply wait_run_settled; [apply wait_run_consistent, start_consistent|exact H].
Qed.

Lemma first_settlement_final_witness :
  Action.settled
    (Action.wait_run ([Action.Exit (Some 1) None] ++ [Action.Timeout; Action.StdoutData "x"])
       Action.start_waiting)
  = Some (inl ("Tunnel process exited unexpectedly with code 1, signal null."
               +:+ Action.nl +:+ "Stdout: " +:+ Action.nl +:+ "Stderr: ")) /\
  Action.killed
    (Action.wait_run ([Action.Exit (Some 1) None] ++ [Action.Timeout; Action.StdoutData "x"])
       Action.start_waiting) = false.
Proof.
  destruct (first_settlement_final [Action.Exit (Some 1) None]
              [Action.Timeout; Action.StdoutData "x"]
              (inl ("Tunnel process exited unexpectedly with code 1, signal null."
                    +:+ Action.nl +:+ "Stdout: " +:+ Action.nl +:+ "Stderr: "))
              eq_refl) as [H1 H2].
  split; [exact H1|exact H2].
Defined.

Lemma append_cons c a b : String c a +:+ b = String c (a +:+ b).
Proof. reflexivity. Qed.

Lemma append_nil b : "" +:+ b = b.
Proof. reflexivity. Qed.

Lemma prefix_blocked lit : forall h d rest,
  blocked d lit = true -> h <> "" -> all_chars nonspace h = true ->
  String.prefix lit (h +:+ String d rest) = false.
Proof.
  induction lit as [|a r IH]; intros h d rest Hb Hne Hh; [discriminate|].
  destruct h as [|c h]; [congruence|]. rewrite append_cons. cbn [String.prefix].
  destruct (ascii_dec a c) as [->|]; [|reflexivity].
  cbn [all_chars] in Hh. apply andb_true_iff in Hh as [Hc Hh].
  cbn [blocked] in Hb. unfold nonspace in Hc. apply negb_true_iff in Hc.
  rewrite Hc in Hb. cbn [orb] in Hb. apply andb_true_iff in Hb as [Hnext Hb].
  destruct h as [|c' h].
  - rewrite append_nil. destruct r as [|a' r]; [discriminate|]. cbn [String.prefix].
    destruct (ascii_dec a' d) as [->|]; [|reflexivity].
    rewrite Ascii.eqb_refl in Hnext. discriminate.
  - apply IH; [exact Hb|discriminate|exact Hh].
Qed.

Lemma capture_miss lit c r :
  String.prefix lit (String c r) = false ->
  Action.capture lit (String c r) = Action.capture lit r.
Proof.
  intros H. cbn [Action.capture]. unfold Action.capture_here. rewrite H. reflexivity.
Qed.

Lemma capture_skip lit h : forall d rest,
  blocked d lit = true -> all_chars nonspace h = true ->
  Action.capture lit (h +:+ String d rest) = Action.capture lit (String d rest).
Proof.
  induction h as [|c h IH]; intros d rest Hb Hh; [reflexivity|].
  pose proof (prefix_blocked lit (String c h) d rest Hb ltac:(discriminate) Hh) as Hp.
  rewrite append_cons in Hp |- *. rewrite (capture_miss _ _ _ Hp).
  cbn [all_chars] in Hh. apply andb_true_iff in Hh as [_ Hh]. apply IH; assumption.
Qed.

Lemma capture_here_some lit s t :
  Action.capture_here lit s = Some t -> Action.capture lit s = Some t.
Proof. intros H. destruct s; cbn [Action.capture]; rewrite H; reflexivity. Qed.

Lemma substring_after a : forall s,
  String.substring (String.length a) (String.length (a +:+ s) - String.length a) (a +:+ s) = s.
Proof.
  induction a as [|c a IH]; intros s.
  - rewrite append_nil. cbn [String.length]. rewrite Nat.sub_0_r. apply substring_all.
  - rewrite append_cons. cbn [String.length Nat.sub String.substring]. apply IH.
Qed.

Lemma take_token tok : forall d rest,
  all_chars nonspace tok = true -> JsString.is_space d = true ->
  Action.take_nonspace (tok +:+ String d rest) = tok.
Proof.
  induction tok as [|c tok IH]; intros d rest Ht Hd.
  - rewrite append_nil. cbn. rewrite Hd. reflexivity.
  - rewrite append_cons. cbn [all_chars] in Ht. apply andb_true_iff in Ht as [Hc Ht].
    unfold nonspace in Hc. apply negb_true_iff in Hc.
    cbn [Action.take_nonspace]. rewrite Hc, (IH d rest Ht Hd). reflexivity.
Qed.

Lemma capture_hit lit tok d rest :
  is_token tok = true -> JsString.is_space d = true ->
  Action.capture lit (lit +:+ String " " (tok +:+ String d rest)) = Some tok.
Proof.
  intros Ht Hd. apply capture_here_some. unfold Action.capture_here.
  rewrite prefix_app, substring_after.
  unfold is_token in Ht. apply andb_true_iff in Ht as [Hne Ht].
  assert (Action.skip_space (String " " (tok +:+ String d rest)) = tok +:+ String d rest) as ->.
  { cbn [Action.skip_space]. change (JsString.is_space " ") with true. cbv iota.
    destruct tok as [|c tok]; [discriminate|]. rewrite append_cons.
    cbn [all_chars] in Ht. apply andb_true_iff in Ht as [Hc _].
    unfold nonspace in Hc. apply negb_true_iff in Hc.
    cbn [Action.skip_space]. rewrite Hc. reflexivity. }
  rewrite (take_token tok d rest Ht Hd).
  apply negb_true_iff in Hne. rewrite Hne. reflexivity.
Qed.

Lemma all_chars_impl (p q : ascii -> bool) s :
  (forall c, p c = true -> q c = true) -> all_chars p s = true -> all_chars q s = true.
Proof.
  intros Hpq. induction s as [|c s IH]; [reflexivity|]. cbn [all_chars].
  intros H. apply andb_true_iff in H as [Hc Hs]. rewrite (Hpq c Hc), (IH Hs). reflexivity.
Qed.

Lemma digit_nonspace c : Url.is_digit c = true -> nonspace c = true.
Proof.
  destruct c as [[] [] [] [] [] [] [] []]; intros H; cbv in H; try discriminate H; reflexivity.
Qed.

Lemma of_N_nonspace n : all_chars nonspace (JsString.of_N n) = true.
Proof. exact (all_chars_impl _ _ _ digit_nonspace (of_N_digits n)). Qed.

Lemma stdout_text_open c t errs code :
  Cli.stdout_text (Cli.mkProcess (Cli.starting_lines c ++ Cli.open_lines t) errs code)
  = "Starting local tunnel..." +:+ Cli.nl +:+ "  Local server: "
    +:+ Cli.localHost c +:+ ":" +:+ JsString.of_N (Cli.port c) +:+ Cli.nl
    +:+ "  Tunnel server: "
    +:+ Cli.effective_serverHost c +:+ ":" +:+ JsString.of_N (Cli.effective_serverPort c)
    +:+ Cli.nl +:+ Cli.nl +:+ "Tunnel is open!" +:+ Cli.nl
    +:+ "  Public URL: " +:+ match public_url t with Some u => u | None => "null" end
    +:+ Cli.nl
    +:+ "  Tunnel ID: " +:+ Cli.tunnelId_text t +:+ Cli.nl
    +:+ Cli.nl +:+ "Press Ctrl+C to close the tunnel" +:+ Cli.nl +:+ Cli.nl.
Proof.
  unfold Cli.stdout_text, Cli.starting_lines, Cli.open_lines.
  cbn [Cli.out_lines app map String.concat].
  repeat rewrite append_assoc. reflexivity.
Qed.

Ltac skip_literal :=
  repeat (rewrite capture_miss by reflexivity).

Lemma capture_public_url h p s sp u rest :
  all_chars nonspace h = true -> all_chars nonspace s = true ->
  is_token u = true ->
  Action.capture "Public URL:"
    ("Starting local tunnel..." +:+ Cli.nl +:+ "  Local server: "
     +:+ h +:+ ":" +:+ JsString.of_N p +:+ Cli.nl
     +:+ "  Tunnel server: " +:+ s +:+ ":" +:+ JsString.of_N sp
     +:+ Cli.nl +:+ Cli.nl +:+ "Tunnel is open!" +:+ Cli.nl
     +:+ "  Public URL: " +:+ u +:+ Cli.nl +:+ rest)
  = Some u.
Proof.
  intros Hh Hs Hu. unfold Cli.nl.
  repeat rewrite append_cons. rewrite !append_nil.
  skip_literal. rewrite capture_skip by (reflexivity || assumption).
  skip_literal. rewrite capture_skip by (reflexivity || apply of_N_nonspace).
  repeat rewrite append_cons. rewrite ?append_nil.
  skip_literal. rewrite capture_skip by (reflexivity || assumption).
  skip_literal. rewrite capture_skip by (reflexivity || apply of_N_nonspace).
  repeat rewrite append_cons. rewrite ?append_nil.
  skip_literal.
  exact (capture_hit "Public URL:" u (ascii_of_nat 10) rest Hu eq_refl).
Qed.

Lemma capture_tunnel_id h p s sp u i rest :
  all_chars nonspace h = true -> all_chars nonspace s = true ->
  is_token u = true -> is_token i = true ->
  Action.capture "Tunnel ID:"
    ("Starting local tunnel..." +:+ Cli.nl +:+ "  Local server: "
     +:+ h +:+ ":" +:+ JsString.of_N p +:+ Cli.nl
     +:+ "  Tunnel server: " +:+ s +:+ ":" +:+ JsString.of_N sp
     +:+ Cli.nl +:+ Cli.nl +:+ "Tunnel is open!" +:+ Cli.nl
     +:+ "  Public URL: " +:+ u +:+ Cli.nl
     +:+ "  Tunnel ID: " +:+ i +:+ Cli.nl +:+ rest)
  = Some i.
Proof.
  intros Hh Hs Hu Hi. unfold Cli.nl.
  unfold is_token in Hu. apply andb_true_iff in Hu as [_ Hu].
  repeat rewrite append_cons. rewrite !append_nil.
  skip_literal. rewrite capture_skip by (reflexivity || assumption).
  skip_literal. rewrite capture_skip by (reflexivity || apply of_N_nonspace).
  repeat rewrite append_cons. rewrite ?append_nil.
  skip_literal. rewrite capture_skip by (reflexivity || assumption).
  skip_literal. rewrite capture_skip by (reflexivity || apply of_N_nonspace).
  repeat rewrite append_cons. rewrite ?append_nil.
  skip_literal. rewrite capture_skip by (reflexivity || assumption).
  repeat rewrite append_cons. rewrite ?append_nil.
  skip_literal.
  exact (capture_hit "Tunnel ID:" i (ascii_of_nat 10) rest Hi eq_refl).
Qed.

(** X27. What the command prints when the tunnel is open is what the
    wrapper waits for: when the host names hold no white space and the
    URL and the id are tokens without white space, the wrapper, given
    the output of the command, resolves with exactly the public URL and
    the id of the tunnel, clears its timer and does not kill the child. *)
Theorem wrapper_reads_cli_output c env w url :
  createTunnel (Cli.tunnel_options c) env = (inr tt, w) ->
  public_url (this w) = Some url ->
  is_token url = true ->
  is_token (Cli.tunnelId_text (this w)) = true ->
  all_chars nonspace (Cli.localHost c) = true ->
  all_chars nonspace (Cli.effective_serverHost c) = true ->
  let ready :=
    Action.wait_run [Action.StdoutData (Cli.stdout_text (fst (Cli.action c env)))]
      Action.start_waiting in
  Action.settled ready = Some (inr (url, Cli.tunnelId_text (this w))) /\
  Action.timer ready = false /\ Action.killed ready = false.
Proof.
  intros Hopen Hurl Hu Hi Hh Hs. cbv zeta.
  unfold Cli.action. rewrite Hopen. cbn [fst].
  rewrite stdout_text_open, Hurl.
  unfold Action.wait_run. cbn [foldl Action.wait_step]. unfold Action.on_stdout.
  cbn [Action.stdout Action.start_waiting]. rewrite append_nil.
  rewrite (capture_public_url _ _ _ _ _ _ Hh Hs Hu).
  rewrite (capture_tunnel_id _ _ _ _ _ _ _ Hh Hs Hu Hi).
  cbn. done.
Qed.

Lemma wrapper_reads_cli_output_witness :
  Action.settled
    (Action.wait_run
       [Action.StdoutData (Cli.stdout_text (fst (Cli.action cli_sample (Samples.env_ok 4))))]
       Action.start_waiting)
  = Some (inr ("https://abc.abbreviated.ai/", "abc")).
Proof.
  destruct (wrapper_reads_cli_output cli_sample (Samples.env_ok 4)
              (snd (createTunnel (Cli.tunnel_options cli_sample) (Samples.env_ok 4)))
              "https://abc.abbreviated.ai/"
              eq_refl eq_refl eq_refl eq_refl eq_refl eq_refl) as [H _].
  exact H.
Defined.

End ActionProofs.
